(** * gftools.push.trafficjam: the push-item registry

    A shallow embedding of [Lib/gftools/push/trafficjam.py]: the
    [PushItem] record, the [PushItems] list with its [add] algorithm,
    the server-file codec ([to_server_file] / [from_server_file]) and
    the push-list progression ([set_pushlist] / [bump_pushlist]).

    Python values are modelled as follows.
    - [str] is a list of characters; a character is an 8-bit [ascii]
      standing for the code point of the same number.
    - [pathlib.Path] (a [PurePosixPath] plus the two file-system queries
      the module uses) is the tuple [Path.parts].
    - [Enum] classes are inductive types with their [value] function.
    - Exceptions are the [Raised] results of the [Outcome] monad.
    - The file system, the two path helpers of [gftools.push.utils] and
      the GitHub client are not part of this module: they are fields of
      the classes [World] and [Board]. *)

From Stdlib Require Import List String Ascii Bool Arith Lia.
From Stdlib Require Import Sorting.Sorted Sorting.Permutation.
From stdpp Require Import gmap strings list.
Import ListNotations.

(** Python [str]. String literals are read as character lists. *)
Abbreviation str := (list ascii).
Coercion list_ascii_of_string : string >-> list.

(** The line feed. *)
Definition NL : ascii := "010"%char.

(** [a < b] on two sequences (strings, tuples): the first position where
    the elements differ decides, and a proper prefix is smaller. *)
Fixpoint lex_ltb {A : Type} (eqb ltb : A -> A -> bool) (a b : list A) : bool :=
  match a, b with
  | _, [] => false
  | [], _ :: _ => true
  | x :: a', y :: b' => if eqb x y then lex_ltb eqb ltb a' b' else ltb x y
  end.

(* ===================================================================== *)
(** ** Python string operations used by the module *)
(* ===================================================================== *)

Module PyStr.

Definition eqb (a b : str) : bool := bool_decide (a = b).

(** [str.isspace] on one character, for code points below 256:
    TAB..CR, FS..US, SPACE, NEL and NBSP. *)
Definition is_space (c : ascii) : bool :=
  let n := nat_of_ascii c in
  ((9 <=? n) && (n <=? 13)) || ((28 <=? n) && (n <=? 32))
  || (n =? 133) || (n =? 160).

Fixpoint lstrip (s : str) : str :=
  match s with
  | c :: s' => if is_space c then lstrip s' else s
  | [] => []
  end.

Definition rstrip (s : str) : str := rev (lstrip (rev s)).

(** [s.strip()] *)
Definition strip (s : str) : str := rstrip (lstrip s).

(** [s.startswith(pre)] *)
Fixpoint startswith (pre s : str) : bool :=
  match pre, s with
  | [], _ => true
  | _ :: _, [] => false
  | a :: pre', b :: s' => bool_decide (a = b) && startswith pre' s'
  end.

(** [a in b] for two strings: [a] occurs in [b] as a substring. *)
Fixpoint contains (a b : str) : bool :=
  startswith a b ||
  match b with
  | [] => false
  | _ :: b' => contains a b'
  end.

(** [c in s] for a one-character string [c]. *)
Definition has_char (c : ascii) (s : str) : bool :=
  existsb (fun x => bool_decide (x = c)) s.

(** [s.split(sep)] for a one-character separator: always at least one
    field, empty fields are kept. *)
Fixpoint split (sep : ascii) (s : str) : list str :=
  match s with
  | [] => [[]]
  | c :: s' =>
      if bool_decide (c = sep) then [] :: split sep s'
      else match split sep s' with
           | f :: fs => (c :: f) :: fs
           | [] => [[c]]
           end
  end.

(** [sep.join(fields)] *)
Fixpoint join (sep : str) (fields : list str) : str :=
  match fields with
  | [] => []
  | [f] => f
  | f :: fs => f ++ sep ++ join sep fs
  end.

(** [s.replace(old, new)] for a non-empty [old]: the occurrences are
    found left to right and do not overlap. [skip] counts the
    characters of a matched occurrence still to be dropped. *)
Fixpoint replace_from (skip : nat) (old new s : str) : str :=
  match skip, s with
  | S k, _ :: s' => replace_from k old new s'
  | S _, [] => []
  | O, [] => []
  | O, c :: s' =>
      if startswith old s then new ++ replace_from (length old - 1) old new s'
      else c :: replace_from O old new s'
  end.

Definition replace (old new s : str) : str := replace_from O old new s.

(** [s.rfind(c)] for a one-character [c]; [None] is Python's [-1]. *)
Fixpoint rfind (c : ascii) (s : str) : option nat :=
  match s with
  | [] => None
  | x :: s' =>
      match rfind c s' with
      | Some i => Some (S i)
      | None => if bool_decide (x = c) then Some O else None
      end
  end.

(** [a < b] on strings: lexicographic on code points. *)
Definition ltb (a b : str) : bool :=
  lex_ltb Ascii.eqb (fun x y => nat_of_ascii x <? nat_of_ascii y) a b.

End PyStr.

(* ===================================================================== *)
(** ** pathlib *)
(* ===================================================================== *)

(** A path is its [parts] tuple: the root (["/"] or ["//"]) first when
    the path is absolute, then the segments. *)
Abbreviation Path := (list str).

Module PurePath.

Definition is_anchor (s : str) : bool :=
  PyStr.eqb s "/" || PyStr.eqb s "//".

(** A segment that [Path(s)] keeps: not empty and not ["."]. *)
Definition kept_segment (x : str) : bool :=
  negb (PyStr.eqb x "" || PyStr.eqb x ".").

(** [Path(s)]: the root is split off, the rest is cut at the slashes,
    and empty and ["."] segments are dropped. Exactly two leading
    slashes are a root of their own on POSIX. *)
Definition of_str (s : str) : Path :=
  let segs := List.filter kept_segment (PyStr.split "/" s) in
  if PyStr.startswith "///" s then ("/" : str) :: segs
  else if PyStr.startswith "//" s then ("//" : str) :: segs
  else if PyStr.startswith "/" s then ("/" : str) :: segs
  else segs.

(** [str(p)], which is also [p.as_posix()] on POSIX. *)
Definition to_str (p : Path) : str :=
  match p with
  | [] => "."
  | a :: tail =>
      if is_anchor a then a ++ PyStr.join "/" tail else PyStr.join "/" p
  end.

(** [p.parent] *)
Definition parent (p : Path) : Path :=
  match p with
  | [] => []
  | [a] => if is_anchor a then [a] else []
  | _ => removelast p
  end.

(** [p.name] *)
Definition name (p : Path) : str :=
  match p with
  | [] => ""
  | [a] => if is_anchor a then "" else a
  | _ => List.last p []
  end.

(** [p.suffix]: the part of the name from its last dot, when that dot
    is neither the first nor the last character of the name. *)
Definition suffix (p : Path) : str :=
  let n := name p in
  match PyStr.rfind "." n with
  | Some i => if (0 <? i) && (i <? length n - 1) then drop i n else []
  | None => []
  end.

Definition eqb (p q : Path) : bool := bool_decide (p = q).

(** [p < q]: the parts are compared as tuples of strings. *)
Definition ltb (p q : Path) : bool := lex_ltb PyStr.eqb PyStr.ltb p q.

(** [s in p.parts] *)
Definition has_part (s : str) (p : Path) : bool :=
  existsb (PyStr.eqb s) p.

End PurePath.

(* ===================================================================== *)
(** ** The environment of the module *)
(* ===================================================================== *)

(** What the module asks of the file system and of [gftools.push.utils]. *)
Class World := {
  (** [Path.is_dir()] *)
  is_dir : Path -> bool;
  (** [Path.exists()] *)
  path_exists : Path -> bool;
  (** [gftools.push.utils.repo_path_to_google_path] *)
  repo_path_to_google_path : Path -> Path;
  (** [gftools.push.utils.google_path_to_repo_path] *)
  google_path_to_repo_path : Path -> Path;
}.

(** Exceptions the modelled code can raise. *)
Inductive Exn : Set :=
| ValueError
| AttributeError
| TransportError.

Inductive Outcome (A : Type) : Type :=
| Ok (a : A)
| Raised (e : Exn).
Arguments Ok {A} a.
Arguments Raised {A} e.

#[global] Instance Outcome_ret : MRet Outcome := fun A a => Ok a.
#[global] Instance Outcome_bind : MBind Outcome := fun A B f m =>
  match m with
  | Ok a => f a
  | Raised e => Raised e
  end.

(** A [for] loop whose body may raise. *)
Fixpoint for_each {A S : Type} (body : S -> A -> Outcome S)
    (xs : list A) (s : S) : Outcome S :=
  match xs with
  | [] => Ok s
  | x :: xs' => s' ← body s x; for_each body xs' s'
  end.

(* ===================================================================== *)
(** ** Enumerations *)
(* ===================================================================== *)

Inductive PushCategory : Set :=
| NEW
| UPGRADE
| OTHER
| DESIGNER_PROFILE
| AXIS_REGISTRY
| KNOWLEDGE
| METADATA
| SAMPLE_TEXTS
| BLOCKED
| DELETED.

Inductive PushStatus : Set :=
| PR_GF
| IN_DEV
| IN_SANDBOX
| LIVE.

Inductive PushList : Set :=
| TO_SANDBOX
| TO_PRODUCTION
| LIST_BLOCKED.

#[global] Instance PushCategory_eq_dec : EqDecision PushCategory.
Proof. solve_decision. Defined.
#[global] Instance PushStatus_eq_dec : EqDecision PushStatus.
Proof. solve_decision. Defined.
#[global] Instance PushList_eq_dec : EqDecision PushList.
Proof. solve_decision. Defined.

Module Category.

(** [PushCategory.X.value] *)
Definition value (c : PushCategory) : str :=
  match c with
  | NEW => "New"
  | UPGRADE => "Upgrade"
  | OTHER => "Other"
  | DESIGNER_PROFILE => "Designer profile"
  | AXIS_REGISTRY => "Axis Registry"
  | KNOWLEDGE => "Knowledge"
  | METADATA => "Metadata / Description / License"
  | SAMPLE_TEXTS => "Sample texts"
  | BLOCKED => "Blocked"
  | DELETED => "Deleted"
  end.

(** Iterating over the class: declaration order. *)
Definition members : list PushCategory :=
  [NEW; UPGRADE; OTHER; DESIGNER_PROFILE; AXIS_REGISTRY; KNOWLEDGE;
   METADATA; SAMPLE_TEXTS; BLOCKED; DELETED].

(** [PushCategory.values()] *)
Definition values : list str := value <$> members.

(** [PushCategory.from_string(string)] *)
Definition from_string (s : str) : option PushCategory :=
  find (fun i => PyStr.eqb (value i) s) members.

End Category.

(** [FAMILY_FILE_SUFFIXES] *)
Definition FAMILY_FILE_SUFFIXES : list str :=
  [ (".ttf" : str); (".otf" : str); (".html" : str); (".pb" : str);
    (".txt" : str); (".yaml" : str); (".png" : str) ].

(* ===================================================================== *)
(** ** PushItem *)
(* ===================================================================== *)

(** The dataclass. [category] and [status] are declared without
    [Optional], but [from_server_file] stores what
    [PushCategory.from_string] returns and the status its caller passed,
    both of which can be [None]. *)
Record PushItem := mkPushItem {
  path : Path;
  category : option PushCategory;
  status : option PushStatus;
  url : str;
  push_list : option PushList;
  merged : option bool;
  id_ : option str;
}.

(** The constructor call with the four positional arguments; the other
    fields take their defaults. *)
Definition PushItem4 (p : Path) (c : option PushCategory)
    (s : option PushStatus) (u : str) : PushItem :=
  mkPushItem p c s u None None None.

Definition set_path (i : PushItem) (p : Path) : PushItem :=
  mkPushItem p (category i) (status i) (url i) (push_list i) (merged i) (id_ i).

Definition set_push_list (i : PushItem) (l : option PushList) : PushItem :=
  mkPushItem (path i) (category i) (status i) (url i) l (merged i) (id_ i).

(** [PushItem.__eq__]: by path only. *)
Definition item_eqb (a b : PushItem) : bool := PurePath.eqb (path a) (path b).

(** [PushItem.exists] *)
Definition item_exists `{World} (i : PushItem) : bool :=
  path_exists (google_path_to_repo_path (path i)).

(* ===================================================================== *)
(** ** PushItems *)
(* ===================================================================== *)

(** The list subclass. Every item handed to [add] below is an object of
    its own (as the items that [from_server_file] and [from_traffic_jam]
    construct are), so the assignments to [item.path] inside [add] are
    seen through no other reference and items are values here. *)
Abbreviation PushItems := (list PushItem).

(** [next((idx for idx, i in enumerate(self) if test(i)), None)] *)
Fixpoint first_index {A : Type} (test : A -> bool) (l : list A) : option nat :=
  match l with
  | [] => None
  | x :: l' => if test x then Some O else S <$> first_index test l'
  end.

(** [self.pop(idx)] for an index in range: the list without that entry. *)
Definition pop {A : Type} (idx : nat) (l : list A) : list A := delete idx l.

(** Lines 292-317 of [add]: the new value of [item.path], or [None] where
    the method returns early. *)
Definition add_path `{World} (p : Path) : option Path :=
  if PurePath.has_part "article" p || PurePath.has_part "static" p then
    if is_dir p then Some (PurePath.parent p)
    else Some (PurePath.parent (PurePath.parent p))
  else if existsb (fun d => PurePath.has_part d p)
            [ ("ofl" : str); ("ufl" : str); ("apache" : str); ("designers" : str) ]
          && existsb (PyStr.eqb (PurePath.suffix p)) FAMILY_FILE_SUFFIXES then
    Some (PurePath.parent p)
  else if existsb (fun d => PurePath.has_part d p)
            [ ("lang" : str); ("axisregistry" : str) ]
          && PyStr.eqb (PurePath.suffix p) ".textproto" then
    Some (repo_path_to_google_path p)
  else if existsb (fun d => PurePath.has_part d p)
            [ ("lang" : str); ("axisregistry" : str) ]
          && negb (PyStr.eqb (PurePath.suffix p) ".textproto") then
    None
  else Some p.

(** [PushItems.add]. The second scan stores the index of the first member
    [i] with [str(i.path.parent) in str(i.path) or i.path == item.path];
    the test [if to_pop:] that follows is false for [None] and for [0]. *)
Definition add `{World} (self : PushItems) (item : PushItem) : PushItems :=
  match add_path (path item) with
  | None => self
  | Some p =>
      if length p =? 1 then self
      else
        let item := set_path item p in
        let self :=
          match first_index (fun i => PurePath.eqb (path i) (path item)) self with
          | Some existing_idx => pop existing_idx self
          | None => self
          end in
        let to_pop :=
          first_index
            (fun i =>
               PyStr.contains (PurePath.to_str (PurePath.parent (path i)))
                              (PurePath.to_str (path i))
               || PurePath.eqb (path i) (path item))
            self in
        let self :=
          match to_pop with
          | Some (S idx) => pop (S idx) self
          | Some O | None => self
          end in
        self ++ [item]
  end.

(** Feeding a sequence of items through [add], in order. *)
Definition add_all `{World} (self : PushItems) (items : list PushItem) : PushItems :=
  fold_left add items self.

(** [PushItems.__add__]: [deepcopy(self)], then every member of [other]
    goes through [add]. *)
Definition union `{World} (self other : PushItems) : PushItems :=
  let new := self in
  fold_left add other new.

(** [PushItems.__sub__]: [i not in other] compares with
    [PushItem.__eq__]; the members kept are added to a new list. *)
Definition difference `{World} (self other : PushItems) : PushItems :=
  let subbed := List.filter (fun i => negb (existsb (item_eqb i) other)) self in
  fold_left add subbed [].

(** The filtered views. *)
Definition to_sandbox (self : PushItems) : PushItems :=
  List.filter (fun i => bool_decide (push_list i = Some TO_SANDBOX)) self.
Definition in_sandbox (self : PushItems) : PushItems :=
  List.filter (fun i => bool_decide (status i = Some IN_SANDBOX)) self.
Definition in_dev (self : PushItems) : PushItems :=
  List.filter (fun i => bool_decide (status i = Some IN_DEV)) self.
Definition to_production (self : PushItems) : PushItems :=
  List.filter (fun i => bool_decide (push_list i = Some TO_PRODUCTION)) self.
Definition live (self : PushItems) : PushItems :=
  List.filter (fun i => bool_decide (status i = Some LIVE)) self.

(* ===================================================================== *)
(** ** The server file *)
(* ===================================================================== *)

(** [s.add(item)] on a Python set of items: hashing and equality are by
    path, and an element equal to one already present is not stored. The
    set is kept as the list of its elements. *)
Definition set_add (item : PushItem) (s : list PushItem) : list PushItem :=
  if existsb (item_eqb item) s then s else s ++ [item].

(** [sorted(s, key=lambda k: k.path)]: a stable sort that compares keys
    with [<] only. The elements of a set have distinct paths, so the
    order in which the set is iterated has no influence on the result
    (lemma [sorted_by_path_unique]). *)
Fixpoint insert_by_path (x : PushItem) (l : list PushItem) : list PushItem :=
  match l with
  | [] => [x]
  | y :: l' =>
      if PurePath.ltb (path y) (path x) then y :: insert_by_path x l'
      else x :: l
  end.

Definition sorted_by_path (l : list PushItem) : list PushItem :=
  fold_right insert_by_path [] l.

(** The line written for one item (lines 368-374). *)
Definition server_line `{World} (item : PushItem) : str :=
  if item_exists item then
    PurePath.to_str (path item) ++ " # " ++ url item
  else if negb (bool_decide (url item = [])) then
    "# Deleted: " ++ PurePath.to_str (path item) ++ " # " ++ url item
  else
    "# Deleted: " ++ PurePath.to_str (path item).

(** The first loop of [to_server_file]: [bins[item.category.value].add(item)]
    on a [defaultdict(set)]. Reading [.value] of a [None] category raises. *)
Definition to_bins (self : PushItems) : Outcome (gmap str (list PushItem)) :=
  for_each
    (fun (bins : gmap str (list PushItem)) item =>
       match category item with
       | Some BLOCKED => Ok bins
       | Some c =>
           Ok (<[Category.value c :=
                   set_add item (default [] (bins !! Category.value c))]> bins)
       | None => Raised AttributeError
       end)
    self ∅.

(** [PushItems.to_server_file], lines 354-375 with the argument of
    [doc.write] at line 380: the text handed to [doc.write]. Opening [fp]
    and the call of [doc.write] itself (lines 376-380) are not part of
    it. *)
Definition to_server_file `{World} (self : PushItems) : Outcome str :=
  bins ← to_bins self;
  let res :=
    flat_map
      (fun tag =>
         match bins !! tag with
         | None => []
         | Some s =>
             [("# " : str) ++ tag]
             ++ (server_line <$> sorted_by_path s)
             ++ [([] : str)]
         end)
      Category.values in
  Ok (PyStr.join [NL] res).

(** The variables of the loop of [from_server_file]. *)
Record Decoder := mkDecoder {
  cur_category : option PushCategory;
  deleted : bool;
  results : PushItems;
}.

(** One turn of the loop of [from_server_file] (lines 399-429). *)
Definition from_server_file_line `{World} (status : option PushStatus)
    (push_list : option PushList) (st : Decoder) (line : str) : Outcome Decoder :=
  match line with
  | [] => Ok st
  | _ :: _ =>
      let is_deleted_line := PyStr.startswith "# Deleted" line in
      let line :=
        if is_deleted_line then PyStr.replace "# Deleted: " "" line else line in
      let deleted := if is_deleted_line then true else deleted st in
      let item_category := if deleted then Some DELETED else cur_category st in
      if PyStr.startswith "#" line then
        Ok (mkDecoder (Category.from_string (PyStr.strip (drop 1 line)))
                      false (results st))
      else if PyStr.has_char "#" line then
        match PyStr.split "#" line with
        | [path; url] =>
            let item :=
              mkPushItem (PurePath.of_str (PyStr.strip path)) item_category
                         status (PyStr.strip url) push_list None None in
            Ok (mkDecoder (cur_category st) false (add (results st) item))
        | _ => Raised ValueError
        end
      else
        let item :=
          mkPushItem (PurePath.of_str (PyStr.strip line)) item_category
                     status "" push_list None None in
        Ok (mkDecoder (cur_category st) false (add (results st) item))
  end.

(** [PushItems.from_server_file] on the text that [doc.read()] returns. *)
Definition from_server_file `{World} (text : str)
    (status : option PushStatus) (push_list : option PushList) : Outcome PushItems :=
  let lines := PyStr.split NL text in
  st ← for_each (from_server_file_line status push_list) lines
         (mkDecoder (Some OTHER) false []);
  Ok (results st).

(* ===================================================================== *)
(** ** The board and the push-list progression *)
(* ===================================================================== *)

(** The arguments of one [GOOGLE_FONTS_UPDATE_ITEM] mutation. *)
Record Mutation := mkMutation {
  projectId : option str;
  itemId : option str;
  fieldId : option str;
  singleSelectOptionId : option str;
}.

(** The configuration read when the module is imported (from the
    configuration file or from the environment, where an unset variable
    gives [None]) and the GitHub client. [graphql_returns calls m] tells
    whether [GitHubClient._run_graphql] returns for the mutation [m]
    after the calls [calls]; otherwise it raises. *)
Class Board := {
  TRAFFIC_JAM_ID : option str;
  STATUS_FIELD_ID : option str;
  LIST_FIELD_ID : option str;
  TO_SANDBOX_ID : option str;
  TO_PRODUCTION_ID : option str;
  BLOCKED_ID : option str;
  graphql_returns : list Mutation -> Mutation -> bool;
}.

Inductive LIST_OPTION_IDS : Set :=
| IDS_TO_SANDBOX
| IDS_TO_PRODUCTION
| IDS_BLOCKED.

Module ListOption.

(** [LIST_OPTION_IDS.X.value] *)
Definition value `{Board} (l : LIST_OPTION_IDS) : option str :=
  match l with
  | IDS_TO_SANDBOX => TO_SANDBOX_ID
  | IDS_TO_PRODUCTION => TO_PRODUCTION_ID
  | IDS_BLOCKED => BLOCKED_ID
  end.

(** [a == b] on members. An [Enum] class makes a name whose value
    repeats an earlier one an alias of that earlier member, so two
    names denote the same member exactly when their values are equal. *)
Definition eqb `{Board} (a b : LIST_OPTION_IDS) : bool :=
  bool_decide (value a = value b).

End ListOption.

(** What a method call on an item can change: the item itself, the calls
    made to the board and the lines printed. *)
Record Session := mkSession {
  self_item : PushItem;
  board_calls : list Mutation;
  printed : list str;
}.

Definition Method (A : Type) : Type := Session -> Outcome A * Session.

(** [g = GitHubClient("google", "fonts")] followed by
    [g._run_graphql(mutation, {})]: the call is recorded, then it returns
    or raises. *)
Definition run_graphql `{Board} (m : Mutation) : Method unit := fun s =>
  let s' := mkSession (self_item s) (board_calls s ++ [m]) (printed s) in
  if graphql_returns (board_calls s) m then (Ok tt, s')
  else (Raised TransportError, s').

Definition assign_push_list (l : PushList) : Method unit := fun s =>
  (Ok tt, mkSession (set_push_list (self_item s) (Some l)) (board_calls s) (printed s)).

Definition print (line : str) : Method unit := fun s =>
  (Ok tt, mkSession (self_item s) (board_calls s) (printed s ++ [line])).

(** [PushItem.set_pushlist] *)
Definition set_pushlist `{Board} (listt : LIST_OPTION_IDS) : Method unit := fun s =>
  let mutation :=
    mkMutation TRAFFIC_JAM_ID (id_ (self_item s)) LIST_FIELD_ID
               (ListOption.value listt) in
  match run_graphql mutation s with
  | (Raised e, s') => (Raised e, s')
  | (Ok _, s') =>
      if ListOption.eqb listt IDS_TO_SANDBOX then assign_push_list TO_SANDBOX s'
      else if ListOption.eqb listt IDS_TO_PRODUCTION then
        assign_push_list TO_PRODUCTION s'
      else if ListOption.eqb listt IDS_BLOCKED then
        assign_push_list LIST_BLOCKED s'
      else (Ok tt, s')
  end.

(** [PushItem.block] *)
Definition block `{Board} : Method unit := fun s =>
  match set_pushlist IDS_BLOCKED s with
  | (Raised e, s') => (Raised e, s')
  | (Ok _, s') => print "Blocked" s'
  end.

(** [PushItem.bump_pushlist] *)
Definition bump_pushlist `{Board} : Method unit := fun s =>
  match push_list (self_item s) with
  | None => set_pushlist IDS_TO_SANDBOX s
  | Some TO_SANDBOX => set_pushlist IDS_TO_PRODUCTION s
  | Some TO_PRODUCTION =>
      print "No push list beyond to_production. Keeping item in to_production" s
  | Some LIST_BLOCKED => (Raised ValueError, s)
  end.

(* ===================================================================== *)
(** ** Notions used to state the properties *)
(* ===================================================================== *)

(** [p] is an ancestor directory of [q]: a strict prefix of its parts. *)
Definition is_ancestor (p q : Path) : bool :=
  (length p <? length q) && bool_decide (take (length p) q = p).

(** The registry invariant: no path twice, no path above another. *)
Definition registry_invariant (r : PushItems) : bool :=
  bool_decide (NoDup (path <$> r))
  && forallb (fun i => forallb (fun j => negb (is_ancestor (path i) (path j))) r) r.

(** The four directories that hold families and designers. *)
Definition family_roots : list str :=
  [ ("ofl" : str); ("ufl" : str); ("apache" : str); ("designers" : str) ].

(** The immediate child-of-root directory of a path: the path cut after
    the segment that follows its first family-root segment. *)
Fixpoint family_dir (p : Path) : option Path :=
  match p with
  | [] => None
  | a :: rest =>
      if existsb (PyStr.eqb a) family_roots then
        match rest with
        | b :: _ => Some [a; b]
        | [] => None
        end
      else (fun d => a :: d) <$> family_dir rest
  end.

(** An item that [add] stores as it is: its path passes lines 292-321
    unchanged. *)
Definition settled `{World} (i : PushItem) : bool :=
  bool_decide (add_path (path i) = Some (path i))
  && negb (length (path i) =? 1).

(** The logical content of an item in the server file. *)
Definition triple (i : PushItem) : Path * option PushCategory * str :=
  (path i, category i, url i).

(** A small checkout for the examples: its directories, its files, and
    the two path helpers, which move the data files of [lang] and
    [axisregistry] out of, and back into, their [Lib/<package>/data]
    directory. *)
Definition example_dirs : list Path :=
  PurePath.of_str <$>
    [ ("ofl" : str); ("ofl/mavenpro" : str); ("ofl/notosans" : str);
      ("ofl/notosans/article" : str); ("ofl/notosans/article/images" : str);
      ("a" : str); ("a/b" : str); ("a/c" : str) ].

Definition example_files : list Path :=
  PurePath.of_str <$>
    [ ("ofl/mavenpro/METADATA.pb" : str);
      ("ofl/notosans/article/images/icons/noto.png" : str) ].

Definition example_to_google (p : Path) : Path :=
  match p with
  | root :: lib :: _ :: data :: rest =>
      if PyStr.eqb lib "Lib" && PyStr.eqb data "data" then root :: rest else p
  | _ => p
  end.

Definition example_to_repo (p : Path) : Path :=
  match p with
  | root :: rest =>
      if PyStr.eqb root "lang" then
        root :: ("Lib" : str) :: ("gflanguages" : str) :: ("data" : str) :: rest
      else if PyStr.eqb root "axisregistry" then
        root :: ("Lib" : str) :: ("axisregistry" : str) :: ("data" : str) :: rest
      else p
  | [] => p
  end.

Definition example_world : World := {|
  is_dir p := bool_decide (p ∈ example_dirs);
  path_exists p := bool_decide (p ∈ example_dirs ++ example_files);
  repo_path_to_google_path := example_to_google;
  google_path_to_repo_path := example_to_repo;
|}.

(** A board with three distinct options whose calls all return. *)
Definition example_board : Board := {|
  TRAFFIC_JAM_ID := Some ("PVT_1" : str);
  STATUS_FIELD_ID := Some ("F_status" : str);
  LIST_FIELD_ID := Some ("F_list" : str);
  TO_SANDBOX_ID := Some ("opt_sandbox" : str);
  TO_PRODUCTION_ID := Some ("opt_production" : str);
  BLOCKED_ID := Some ("opt_blocked" : str);
  graphql_returns _ _ := true;
|}.

(** The board of a process that has neither the configuration file nor
    the environment variables: every [os.environ.get] gives [None], so
    the three names of [LIST_OPTION_IDS] share one value. Its calls all
    return. *)
Definition unset_board : Board := {|
  TRAFFIC_JAM_ID := None;
  STATUS_FIELD_ID := None;
  LIST_FIELD_ID := None;
  TO_SANDBOX_ID := None;
  TO_PRODUCTION_ID := None;
  BLOCKED_ID := None;
  graphql_returns _ _ := true;
|}.

(** The registry without its first member at path [p]. *)
Definition without_path (p : Path) (r : PushItems) : PushItems :=
  match first_index (fun i => PurePath.eqb (path i) p) r with
  | Some idx => pop idx r
  | None => r
  end.

(** No member of [r] has a path of exactly one part. *)
Definition no_bare_root (r : PushItems) : Prop :=
  Forall (fun i => length (path i) <> 1) r.

(** What [add] appends for an item: the item at its new path, or nothing
    where [add] returns early. *)
Definition stored `{World} (i : PushItem) : option PushItem :=
  match add_path (path i) with
  | Some p => if length p =? 1 then None else Some (set_path i p)
  | None => None
  end.

(** The members of [a] whose path is the path of no member of [b]. *)
Definition kept_members (a b : PushItems) : PushItems :=
  List.filter (fun i => negb (bool_decide (path i ∈ path <$> b))) a.

(** The set that [to_server_file] collects under the tag of [c]. *)
Definition bin_of (c : PushCategory) (self : PushItems) : list PushItem :=
  fold_left (fun s i => set_add i s)
            (List.filter (fun i => bool_decide (category i = Some c)) self) [].

(** The members written under the heading of [c], in the order written. *)
Definition listed (c : PushCategory) (self : PushItems) : list PushItem :=
  if bool_decide (c = BLOCKED) then [] else sorted_by_path (bin_of c self).

(** The lines of one group of the server file. *)
Definition group_lines `{World} (c : PushCategory) (g : list PushItem) : list str :=
  match g with
  | [] => []
  | _ :: _ => [("# " : str) ++ Category.value c] ++ (server_line <$> g) ++ [([] : str)]
  end.

(** [i] comes before [j] in a group. *)
Definition path_lt (i j : PushItem) : Prop := PurePath.ltb (path i) (path j) = true.

(** [i] does not come after [j]. *)
Definition path_le (i j : PushItem) : Prop := PurePath.ltb (path j) (path i) = false.

(** What the dictionary of [to_server_file] holds under the tag of [c]. *)
Definition bin_lookup (c : PushCategory) (self : PushItems) : option (list PushItem) :=
  if bool_decide (c = BLOCKED) then None
  else match bin_of c self with
       | [] => None
       | s => Some s
       end.

(** The server file of the grouping example. *)
Definition example_manifest : str :=
  "# New
a/c # 46

# Upgrade
a/b # 45
".

(** A text that a line of the server file carries unchanged: no [#], no
    line feed, no white space at either end. *)
Definition plain (s : str) : bool :=
  negb (PyStr.has_char "#" s) && negb (PyStr.has_char NL s)
  && PyStr.eqb (PyStr.strip s) s.

(** An item that the server file can carry: [add] stores it as it is; its
    path is a path object ([Path(str(p)) == p]) with a plain text; its url
    is plain and does not begin with [Deleted: ]; it has a category other
    than [BLOCKED]; and it is on disk unless its category is [DELETED]. *)
Definition writable `{World} (i : PushItem) : bool :=
  settled i
  && PurePath.eqb (PurePath.of_str (PurePath.to_str (path i))) (path i)
  && plain (PurePath.to_str (path i))
  && plain (url i)
  && negb (PyStr.startswith "Deleted: " (url i))
  && match category i with
     | Some BLOCKED | None => false
     | Some DELETED => true
     | Some _ => item_exists i
     end.

(** The item that [from_server_file] builds from the line of [i]. *)
Definition reread (status : option PushStatus) (push_list : option PushList)
    (i : PushItem) : PushItem :=
  mkPushItem (path i) (category i) status (url i) push_list None None.

(** The members of [self] in the order of the server file. *)
Definition file_order (self : PushItems) : PushItems :=
  flat_map (fun c => listed c self) Category.members.

(** Two registries hold the same set of (path, category, url) triples. *)
Definition same_items (a b : PushItems) : Prop :=
  forall t, t ∈ triple <$> a <-> t ∈ triple <$> b.

(** The round trip of a registry through the server file: the registry is
    written, the text is read, what was read is written again and that
    text is read too; what the two texts hold is the same set of items,
    and it is the set of items of the registry. *)
Definition round_trips `{World} (status : option PushStatus)
    (push_list : option PushList) (r : PushItems) : Prop :=
  exists (text1 : str) (r1 : PushItems) (text2 : str) (r2 : PushItems),
    to_server_file r = Ok text1
    /\ from_server_file text1 status push_list = Ok r1
    /\ to_server_file r1 = Ok text2
    /\ from_server_file text2 status push_list = Ok r2
    /\ same_items r2 r1
    /\ same_items r1 r.

(** The text that [from_server_file] parses from a line: the line
    without the [# Deleted: ] marks when it begins with [# Deleted]. *)
Definition unmarked (line : str) : str :=
  if PyStr.startswith "# Deleted" line
  then PyStr.replace "# Deleted: " "" line else line.

(** A line that [from_server_file] can take: a heading, a line without
    [#], or a line that [#] cuts into exactly two fields. *)
Definition readable (line : str) : bool :=
  PyStr.startswith "#" (unmarked line)
  || negb (PyStr.has_char "#" (unmarked line))
  || (length (PyStr.split "#" (unmarked line)) =? 2).

(** A segment of a path object: kept by [Path(s)] and free of slashes. *)
Definition good_segment (x : str) : bool :=
  PurePath.kept_segment x && negb (PyStr.has_char "/" x).

(** The parts of a path object: segments, after the root if there is one. *)
Definition path_object (p : Path) : bool :=
  match p with
  | [] => true
  | a :: tail => (PurePath.is_anchor a || good_segment a) && forallb good_segment tail
  end.

(** The working directory of the test suite: none of the paths of the
    tests is on disk. *)
Definition test_world : World := {|
  is_dir _ := false;
  path_exists _ := false;
  repo_path_to_google_path := example_to_google;
  google_path_to_repo_path := example_to_repo;
|}.

(** The items of [tests/test_push.py]. *)
Definition test_item (p : str) : PushItem :=
  PushItem4 (PurePath.of_str p) (Some NEW) (Some IN_DEV) "1".

(* ===================================================================== *)
(** ** Further parts of the module *)
(* ===================================================================== *)

Module Status.

(** [PushStatus.X.value] *)
Definition value (s : PushStatus) : str :=
  match s with
  | PR_GF => "PR GF"
  | IN_DEV => "In Dev / PR Merged"
  | IN_SANDBOX => "In Sandbox"
  | LIVE => "Live"
  end.

Definition members : list PushStatus := [PR_GF; IN_DEV; IN_SANDBOX; LIVE].

(** [PushStatus.from_string(string)] *)
Definition from_string (s : str) : option PushStatus :=
  find (fun i => PyStr.eqb (value i) s) members.

End Status.

Module PList.

(** [PushList.X.value] *)
Definition value (l : PushList) : str :=
  match l with
  | TO_SANDBOX => "to_sandbox"
  | TO_PRODUCTION => "to_production"
  | LIST_BLOCKED => "blocked"
  end.

Definition members : list PushList := [TO_SANDBOX; TO_PRODUCTION; LIST_BLOCKED].

(** [PushList.from_string(string)] *)
Definition from_string (s : str) : option PushList :=
  find (fun i => PyStr.eqb (value i) s) members.

End PList.

(** The dictionary that [PushItem.to_json] returns, key by key. *)
Record Summary := mkSummary {
  json_path : str;
  json_category : option str;
  json_status : option str;
  json_url : option str;
}.

(** [PushItem.to_json]: a missing category or status and an empty url
    are given as [None]. *)
Definition to_json (i : PushItem) : Summary :=
  mkSummary (PurePath.to_str (path i))
            (Category.value <$> category i)
            (Status.value <$> status i)
            (match url i with [] => None | _ :: _ => Some (url i) end).


(** The option ids of the status field, read with the rest of the
    configuration. *)
Class StatusOptions := {
  PR_GF_ID : option str;
  IN_DEV_ID : option str;
  IN_SANDBOX_ID : option str;
  LIVE_ID : option str;
}.

Inductive STATUS_OPTION_IDS : Set :=
| IDS_PR_GF
| IDS_IN_DEV
| IDS_IN_SANDBOX
| IDS_LIVE.

Module StatusOption.

(** [STATUS_OPTION_IDS.X.value] *)
Definition value `{StatusOptions} (s : STATUS_OPTION_IDS) : option str :=
  match s with
  | IDS_PR_GF => PR_GF_ID
  | IDS_IN_DEV => IN_DEV_ID
  | IDS_IN_SANDBOX => IN_SANDBOX_ID
  | IDS_LIVE => LIVE_ID
  end.

End StatusOption.

(** [PushItem.set_server] *)
Definition set_server `{Board} `{StatusOptions} (server : STATUS_OPTION_IDS) :
    Method unit := fun s =>
  let mutation :=
    mkMutation TRAFFIC_JAM_ID (id_ (self_item s)) STATUS_FIELD_ID
               (StatusOption.value server) in
  run_graphql mutation s.

(** Lines 482-500 of [from_traffic_jam]: the category of a pull request,
    from the names of its labels. *)
Definition category_of_labels (labels : list str) : PushCategory :=
  let has (l : str) := existsb (PyStr.eqb l) labels in
  if has "--- blocked" then BLOCKED
  else if has "I Font Upgrade" || has "I Small Fix" then UPGRADE
  else if has "I New Font" then NEW
  else if has "I Description/Metadata/OFL" then METADATA
  else if has "I Designer profile" then DESIGNER_PROFILE
  else if has "I Knowledge" then KNOWLEDGE
  else if has "I Axis Registry" then AXIS_REGISTRY
  else if has "I Lang" then SAMPLE_TEXTS
  else OTHER.

(** Lines 475-503 of [from_traffic_jam], for one item of the board that
    has labels: one [add] per file of the pull request. *)
Definition add_pull_request `{World} (results : PushItems)
    (status : option PushStatus) (push_list : option PushList)
    (labels : list str) (files : list str) (url : str)
    (merged : option bool) (id_ : option str) : PushItems :=
  let cat := category_of_labels labels in
  fold_left
    (fun results f =>
       add results
           (mkPushItem (PurePath.of_str f) (Some cat) status url push_list merged id_))
    files results.


(** The fields that [from_traffic_jam] gives the items of one pull
    request. *)
Definition of_pull_request (labels : list str) (stat : option PushStatus)
    (plist : option PushList) (link : str) (merge : option bool)
    (ident : option str) (i : PushItem) : Prop :=
  category i = Some (category_of_labels labels)
  /\ status i = stat /\ push_list i = plist
  /\ url i = link /\ merged i = merge /\ id_ i = ident.

(** The labels that [from_traffic_jam] knows. *)
Definition known_labels : list str :=
  [ ("--- blocked" : str); ("I Font Upgrade" : str); ("I Small Fix" : str);
    ("I New Font" : str); ("I Description/Metadata/OFL" : str);
    ("I Designer profile" : str); ("I Knowledge" : str);
    ("I Axis Registry" : str); ("I Lang" : str) ].

(** [n] calls of [bump_pushlist] in a row, stopping at the first
    exception. *)
Fixpoint bump_times `{Board} (n : nat) : Method unit := fun s =>
  match n with
  | O => (Ok tt, s)
  | S n' =>
      match bump_pushlist s with
      | (Ok _, s') => bump_times n' s'
      | (Raised e, s') => (Raised e, s')
      end
  end.

(* ===================================================================== *)
(** * Properties *)
(* ===================================================================== *)

(** ** Ancestor and descendant pairs *)

(** C2. Adding an item at [ofl/mavenpro] and then the same item at [ofl]
    to the empty registry leaves exactly the item at [ofl/mavenpro], and
    so does adding the two in the other order. *)
Theorem mavenpro_and_ofl_in_either_order `{World} (i : PushItem) :
  let child := set_path i (PurePath.of_str "ofl/mavenpro") in
  let root := set_path i (PurePath.of_str "ofl") in
  add_all [] [child; root] = [child]
  /\ add_all [] [root; child] = [child].
Proof. split; vm_compute; reflexivity. Qed.

(** ** Strings and paths *)

Lemma eqb_true (a b : str) : PyStr.eqb a b = true <-> a = b.
Proof. unfold PyStr.eqb. apply bool_decide_eq_true. Qed.

Lemma eqb_false (a b : str) : PyStr.eqb a b = false <-> a <> b.
Proof. unfold PyStr.eqb. apply bool_decide_eq_false. Qed.

Lemma path_eqb_true (p q : Path) : PurePath.eqb p q = true <-> p = q.
Proof. unfold PurePath.eqb. apply bool_decide_eq_true. Qed.

Lemma path_eqb_false (p q : Path) : PurePath.eqb p q = false <-> p <> q.
Proof. unfold PurePath.eqb. apply bool_decide_eq_false. Qed.

Lemma startswith_app (a b : str) : PyStr.startswith a (a ++ b) = true.
Proof.
  induction a as [|c a IH]; simpl; [reflexivity|].
  rewrite bool_decide_eq_true_2 by reflexivity. exact IH.
Qed.

Lemma startswith_app_same (a b c : str) :
  PyStr.startswith (a ++ b) (a ++ c) = PyStr.startswith b c.
Proof.
  induction a as [|x a IH]; simpl; [reflexivity|].
  rewrite bool_decide_eq_true_2 by reflexivity. exact IH.
Qed.

Lemma startswith_nil (s : str) : PyStr.startswith [] s = true.
Proof. destruct s; reflexivity. Qed.

Lemma contains_of_startswith (a b : str) :
  PyStr.startswith a b = true -> PyStr.contains a b = true.
Proof. intros E. destruct b; simpl in *; rewrite E; reflexivity. Qed.

(** The text of a list without its last field begins the text of the list. *)
Lemma join_removelast_prefix (sep : str) (l : list str) :
  PyStr.startswith (PyStr.join sep (removelast l)) (PyStr.join sep l) = true.
Proof.
  induction l as [|x l IH]; [reflexivity|].
  destruct l as [|y l]; [apply startswith_nil|].
  change (removelast (x :: y :: l)) with (x :: removelast (y :: l)).
  change (PyStr.join sep (x :: y :: l)) with (x ++ sep ++ PyStr.join sep (y :: l)).
  destruct (removelast (y :: l)) as [|z l'] eqn:E.
  - simpl. rewrite <- (app_nil_r x) at 1.
    rewrite startswith_app_same. apply startswith_nil.
  - change (PyStr.join sep (x :: z :: l'))
      with (x ++ sep ++ PyStr.join sep (z :: l')).
    rewrite !startswith_app_same. exact IH.
Qed.

(** [str(p.parent) in str(p)] holds of every path that does not consist
    of one part. *)
Lemma parent_text_in_own_text (p : Path) :
  length p <> 1 ->
  PyStr.contains (PurePath.to_str (PurePath.parent p)) (PurePath.to_str p) = true.
Proof.
  intros Hlen. apply contains_of_startswith.
  destruct p as [|a [|b t]]; [reflexivity | simpl in Hlen; lia |].
  unfold PurePath.parent.
  change (removelast (a :: b :: t)) with (a :: removelast (b :: t)).
  unfold PurePath.to_str. destruct (PurePath.is_anchor a).
  - rewrite startswith_app_same. apply join_removelast_prefix.
  - apply (join_removelast_prefix "/" (a :: b :: t)).
Qed.

(** ** The add algorithm *)

Lemma set_path_same (i : PushItem) : set_path i (path i) = i.
Proof. destruct i; reflexivity. Qed.

Lemma path_set_path (i : PushItem) (p : Path) : path (set_path i p) = p.
Proof. reflexivity. Qed.

Lemma first_index_none {A} (test : A -> bool) (l : list A) :
  first_index test l = None <-> Forall (fun x => test x = false) l.
Proof.
  induction l as [|x l IH]; simpl.
  - split; [constructor | reflexivity].
  - destruct (test x) eqn:E.
    + split; [discriminate | intros F; inversion F; congruence].
    + destruct (first_index test l); simpl.
      * split; [discriminate|]. intros F. inversion F; subst.
        apply IH in H2. discriminate.
      * split; [|reflexivity]. intros _. constructor; [exact E | apply IH; reflexivity].
Qed.

Lemma first_index_some {A} (test : A -> bool) (l : list A) (n : nat) :
  first_index test l = Some n ->
  exists l1 x l2, l = l1 ++ x :: l2 /\ length l1 = n /\ test x = true
                  /\ Forall (fun y => test y = false) l1.
Proof.
  revert n. induction l as [|x l IH]; simpl; intros n E; [discriminate|].
  destruct (test x) eqn:Ex.
  - injection E as <-. exists [], x, l. repeat split; [exact Ex | constructor].
  - destruct (first_index test l) as [m|]; [|discriminate].
    injection E as <-. destruct (IH m eq_refl) as (l1 & y & l2 & -> & <- & Hy & Hl1).
    exists (x :: l1), y, l2. repeat split; [exact Hy | constructor; assumption].
Qed.

Lemma pop_middle {A} (l1 : list A) (x : A) (l2 : list A) :
  pop (length l1) (l1 ++ x :: l2) = l1 ++ l2.
Proof. unfold pop. induction l1 as [|y l1 IH]; simpl; [reflexivity | f_equal; exact IH]. Qed.

(** What [without_path] removes. *)
Lemma without_path_absent (p : Path) (r : PushItems) :
  p ∉ path <$> r -> without_path p r = r.
Proof.
  intros Hp. unfold without_path.
  destruct (first_index _ r) as [n|] eqn:E; [|reflexivity].
  apply first_index_some in E as (l1 & x & l2 & -> & _ & Hx & _).
  apply path_eqb_true in Hx. exfalso. apply Hp.
  rewrite fmap_app. simpl. rewrite elem_of_app, elem_of_cons. right; left. congruence.
Qed.

Lemma without_path_split (p : Path) (r : PushItems) :
  p ∈ (path <$> r) ->
  exists l1 x l2, r = l1 ++ x :: l2 /\ path x = p /\ (p ∉ path <$> l1)
                  /\ without_path p r = l1 ++ l2.
Proof.
  intros Hp. unfold without_path.
  destruct (first_index _ r) as [n|] eqn:E.
  - apply first_index_some in E as (l1 & x & l2 & -> & <- & Hx & Hl1).
    apply path_eqb_true in Hx. exists l1, x, l2. repeat split; [exact Hx | | apply pop_middle].
    intros Hin. apply list_elem_of_fmap in Hin as (y & Ey & Hy).
    rewrite Forall_forall in Hl1.
    specialize (Hl1 y Hy). apply path_eqb_false in Hl1. congruence.
  - apply first_index_none in E. exfalso.
    apply list_elem_of_fmap in Hp as (y & Ey & Hy).
    rewrite Forall_forall in E.
    specialize (E y Hy). apply path_eqb_false in E. congruence.
Qed.

Lemma without_path_sublist (p : Path) (r : PushItems) :
  sublist (without_path p r) r.
Proof.
  destruct (decide (p ∈ path <$> r)) as [Hin|Hout].
  - destruct (without_path_split p r Hin) as (l1 & x & l2 & -> & _ & _ & ->).
    apply sublist_app; [reflexivity | apply sublist_cons_r; left; reflexivity].
  - rewrite without_path_absent by assumption. reflexivity.
Qed.

Lemma no_bare_root_sublist (r r' : PushItems) :
  sublist r' r -> no_bare_root r -> no_bare_root r'.
Proof.
  unfold no_bare_root. rewrite !Forall_forall. intros S F x Hx.
  apply F. eapply elem_of_sublist; eassumption.
Qed.

(** In a registry without one-part paths the second scan of [add] stops
    at index 0 or finds nothing, so it removes no member: [add] is the
    removal of the member at the same path followed by [append]. *)
Lemma add_unfold `{World} (self : PushItems) (item : PushItem) :
  no_bare_root self ->
  add self item =
    match add_path (path item) with
    | None => self
    | Some p =>
        if length p =? 1 then self
        else without_path p self ++ [set_path item p]
    end.
Proof.
  intros Hself. unfold add.
  destruct (add_path (path item)) as [p|]; [|reflexivity].
  destruct (length p =? 1) eqn:Elen; [reflexivity|].
  rewrite path_set_path. fold (without_path p self).
  pose proof (no_bare_root_sublist _ _ (without_path_sublist p self) Hself) as Hw.
  destruct (without_path p self) as [|j r]; [reflexivity|].
  simpl. inversion Hw as [|? ? Hj _]; subst.
  rewrite (parent_text_in_own_text (path j) Hj). reflexivity.
Qed.

Lemma add_no_bare_root `{World} (self : PushItems) (item : PushItem) :
  no_bare_root self -> no_bare_root (add self item).
Proof.
  intros Hself. rewrite add_unfold by assumption.
  destruct (add_path (path item)) as [p|]; [|assumption].
  destruct (length p =? 1) eqn:Elen; [assumption|].
  apply Nat.eqb_neq in Elen.
  apply Forall_app; split.
  - exact (no_bare_root_sublist _ _ (without_path_sublist p self) Hself).
  - constructor; [exact Elen | constructor].
Qed.

Lemma add_all_no_bare_root `{World} (items : list PushItem) (self : PushItems) :
  no_bare_root self -> no_bare_root (add_all self items).
Proof.
  revert self. induction items as [|x items IH]; intros self Hself; [assumption|].
  apply IH, add_no_bare_root, Hself.
Qed.

Lemma without_path_NoDup (p : Path) (r : PushItems) :
  NoDup (path <$> r) ->
  NoDup (path <$> without_path p r) /\ (p ∉ path <$> without_path p r).
Proof.
  intros Hnd. destruct (decide (p ∈ path <$> r)) as [Hin|Hout].
  - destruct (without_path_split p r Hin) as (l1 & x & l2 & -> & <- & Hl1 & ->).
    rewrite fmap_app in *. simpl in Hnd.
    apply NoDup_app in Hnd as (N1 & N12 & N2).
    apply NoDup_cons in N2 as (Nx & N2).
    split.
    + apply NoDup_app. repeat split; [exact N1 | | exact N2].
      intros y Hy Hy2. apply (N12 y Hy). right. exact Hy2.
    + rewrite elem_of_app. intros [?|?]; [apply Hl1 | apply Nx]; assumption.
  - rewrite without_path_absent by assumption. split; assumption.
Qed.

(** After every [add] the paths of the registry are pairwise distinct. *)
Lemma add_NoDup `{World} (self : PushItems) (item : PushItem) :
  no_bare_root self -> NoDup (path <$> self) -> NoDup (path <$> add self item).
Proof.
  intros Hself Hnd. rewrite add_unfold by assumption.
  destruct (add_path (path item)) as [p|]; [|assumption].
  destruct (length p =? 1); [assumption|].
  destruct (without_path_NoDup p self Hnd) as (N & Hp).
  rewrite fmap_app. simpl. apply NoDup_app. repeat split; [exact N | | ].
  - intros y Hy Hy2. apply list_elem_of_singleton in Hy2. subst. contradiction.
  - apply NoDup_singleton.
Qed.

Lemma add_all_NoDup `{World} (items : list PushItem) (self : PushItems) :
  no_bare_root self -> NoDup (path <$> self) -> NoDup (path <$> add_all self items).
Proof.
  revert self. induction items as [|x items IH]; intros self Hself Hnd; [assumption|].
  apply IH; [apply add_no_bare_root | apply add_NoDup]; assumption.
Qed.

(** Members with distinct settled paths go through [add] unchanged. *)
Lemma add_settled `{World} (self : PushItems) (item : PushItem) :
  no_bare_root self -> settled item = true -> path item ∉ path <$> self ->
  add self item = self ++ [item].
Proof.
  intros Hself Hs Hp. rewrite add_unfold by assumption.
  unfold settled in Hs. apply andb_prop in Hs as (Ha & Hl).
  apply bool_decide_eq_true in Ha. rewrite Ha.
  apply negb_true_iff in Hl. rewrite Hl.
  rewrite without_path_absent by assumption. rewrite set_path_same. reflexivity.
Qed.

Lemma settled_not_bare `{World} (l : PushItems) :
  Forall (fun i => settled i = true) l -> no_bare_root l.
Proof.
  unfold no_bare_root. intros F. eapply Forall_impl; [exact F|]. intros i Hs. simpl in Hs.
  unfold settled in Hs. apply andb_prop in Hs as (_ & Hl).
  apply negb_true_iff, Nat.eqb_neq in Hl. exact Hl.
Qed.

Lemma add_all_settled `{World} (l self : PushItems) :
  no_bare_root self -> Forall (fun i => settled i = true) l ->
  NoDup (path <$> self ++ l) ->
  add_all self l = self ++ l.
Proof.
  revert self. induction l as [|x l IH]; intros self Hself Hl Hnd.
  - simpl. rewrite app_nil_r. reflexivity.
  - inversion Hl as [|? ? Hx Hl']; subst. simpl.
    rewrite fmap_app in Hnd. simpl in Hnd.
    assert (Hxs : path x ∉ path <$> self).
    { apply NoDup_app in Hnd as (_ & Hd & _). intros Hin.
      apply (Hd _ Hin). left. }
    rewrite add_settled by assumption.
    rewrite IH.
    + rewrite <- app_assoc. reflexivity.
    + apply Forall_app; split; [exact Hself|].
      apply (settled_not_bare [x]). constructor; [exact Hx | constructor].
    + exact Hl'.
    + rewrite <- app_assoc. simpl. rewrite fmap_app. exact Hnd.
Qed.

(** C1. Feeding the files [ofl/mavenpro/METADATA.pb] and
    [ofl/mavenpro/sources/config.yaml] through [add], starting from the
    empty registry, leaves a member at [ofl/mavenpro] and a member at
    [ofl/mavenpro/sources]: the first path is an ancestor of the second,
    so the registry invariant does not hold after the second call. *)
Theorem ancestor_stays_when_descendant_is_added `{World} (i : PushItem) :
  let r := add_all []
             [ set_path i (PurePath.of_str "ofl/mavenpro/METADATA.pb");
               set_path i (PurePath.of_str "ofl/mavenpro/sources/config.yaml") ] in
  path <$> r = [ PurePath.of_str "ofl/mavenpro"; PurePath.of_str "ofl/mavenpro/sources" ]
  /\ is_ancestor (PurePath.of_str "ofl/mavenpro") (PurePath.of_str "ofl/mavenpro/sources") = true
  /\ registry_invariant r = false.
Proof. repeat split; vm_compute; reflexivity. Qed.

(** ** Family files *)

Lemma family_dir_prefix (p d : Path) :
  family_dir p = Some d -> 2 <= length d /\ exists rest, p = d ++ rest.
Proof.
  revert d. induction p as [|a p IH]; intros d E; [discriminate|].
  simpl in E.
  match type of E with (if ?b then _ else _) = _ => destruct b end.
  - destruct p as [|b p]; [discriminate|]. injection E as <-.
    split; [simpl; lia | exists p; reflexivity].
  - destruct (family_dir p) as [d'|]; [|discriminate]. injection E as <-.
    destruct (IH d' eq_refl) as (L & rest & ->).
    split; [simpl; lia | exists rest; reflexivity].
Qed.

Lemma parent_snoc (d : Path) (x : str) :
  2 <= length d -> PurePath.parent (d ++ [x]) = d.
Proof.
  intros L. destruct d as [|a [|b d]]; simpl in L; try lia.
  unfold PurePath.parent.
  change ((a :: b :: d) ++ [x]) with (a :: b :: (d ++ [x])).
  change (a :: b :: (d ++ [x])) with ((a :: b :: d) ++ [x]).
  apply removelast_last.
Qed.

(** C7, as the code has it. For a path without an [article] or [static]
    part, with a part among [ofl], [ufl], [apache], [designers] and a
    suffix among the family file suffixes, [add] replaces the path by its
    parent directory. That is the family directory when the file lies
    directly in it; and the two MavenPro font files give one item at
    [ofl/mavenpro]. *)
Theorem family_file_goes_to_its_parent `{World} (p : Path) :
  PurePath.has_part "article" p = false ->
  PurePath.has_part "static" p = false ->
  existsb (fun d => PurePath.has_part d p) family_roots = true ->
  existsb (PyStr.eqb (PurePath.suffix p)) FAMILY_FILE_SUFFIXES = true ->
  add_path p = Some (PurePath.parent p)
  /\ (forall d, family_dir p = Some d -> length p = S (length d) -> add_path p = Some d)
  /\ (forall i : PushItem,
        add_all []
          [ set_path i (PurePath.of_str "ofl/mavenpro/MavenPro[wght].ttf");
            set_path i (PurePath.of_str "ofl/mavenpro/MavenPro-Italic[wght].ttf") ]
        = [ set_path i (PurePath.of_str "ofl/mavenpro") ]).
Proof.
  intros Ha Hs Hr Hx.
  assert (E : add_path p = Some (PurePath.parent p)).
  { unfold add_path. rewrite Ha, Hs. simpl orb. cbv iota.
    unfold family_roots in Hr. rewrite Hr, Hx. reflexivity. }
  split; [exact E|]. split.
  - intros d Hd Hlen. rewrite E. f_equal.
    destruct (family_dir_prefix p d Hd) as (L & rest & ->).
    rewrite length_app in Hlen.
    destruct rest as [|x [|y rest]]; simpl in Hlen; try lia.
    apply parent_snoc, L.
  - intros i. vm_compute. reflexivity.
Qed.

Lemma family_file_goes_to_its_parent_witness :
  let p := PurePath.of_str "ofl/mavenpro/MavenPro[wght].ttf" in
  PurePath.has_part "article" p = false
  /\ PurePath.has_part "static" p = false
  /\ existsb (fun d => PurePath.has_part d p) family_roots = true
  /\ existsb (PyStr.eqb (PurePath.suffix p)) FAMILY_FILE_SUFFIXES = true
  /\ @add_path example_world p = Some (PurePath.of_str "ofl/mavenpro").
Proof.
  cbv zeta. do 4 (split; [reflexivity|]).
  exact (proj1 (@family_file_goes_to_its_parent example_world
                  (PurePath.of_str "ofl/mavenpro/MavenPro[wght].ttf")
                  eq_refl eq_refl eq_refl eq_refl)).
Defined.

(** A font file one directory below the family directory: every premise
    of C7 holds, the family directory is [ofl/mavenpro], and [add] gives
    the item the path [ofl/mavenpro/fonts]. *)
Lemma family_file_in_subdirectory :
  let p := PurePath.of_str "ofl/mavenpro/fonts/MavenPro[wght].ttf" in
  PurePath.has_part "article" p = false
  /\ PurePath.has_part "static" p = false
  /\ existsb (fun d => PurePath.has_part d p) family_roots = true
  /\ existsb (PyStr.eqb (PurePath.suffix p)) FAMILY_FILE_SUFFIXES = true
  /\ family_dir p = Some (PurePath.of_str "ofl/mavenpro")
  /\ @add_path example_world p = Some (PurePath.of_str "ofl/mavenpro/fonts")
  /\ @add_path example_world p <> family_dir p.
Proof. repeat split; try reflexivity. vm_compute. discriminate. Qed.

(** ** Difference and union *)

Lemma kept_members_test (a b : PushItems) :
  List.filter (fun i => negb (existsb (item_eqb i) b)) a = kept_members a b.
Proof.
  unfold kept_members. apply List.filter_ext. intros i. f_equal.
  apply eq_true_iff_eq. rewrite existsb_exists, bool_decide_eq_true.
  rewrite list_elem_of_fmap. split.
  - intros (j & Hj & E). apply path_eqb_true in E.
    exists j. split; [exact E | apply list_elem_of_In, Hj].
  - intros (j & E & Hj). exists j.
    split; [apply list_elem_of_In, Hj | apply path_eqb_true, E].
Qed.

(** Every member of [add self item] is a member of [self] or the item as
    [add] stores it. *)
Lemma elem_of_add `{World} (self : PushItems) (item x : PushItem) :
  x ∈ add self item -> x ∈ self \/ stored item = Some x.
Proof.
  unfold add, stored. destruct (add_path (path item)) as [p|]; [|auto].
  destruct (length p =? 1); [auto|]. cbv zeta. intros Hx.
  apply elem_of_app in Hx as [Hx|Hx].
  - left.
    assert (S1 : forall (l : PushItems) (o : option nat),
              sublist (match o with Some idx => pop idx l | None => l end) l).
    { intros l [idx|]; [apply sublist_delete | reflexivity]. }
    assert (S2 : forall (l : PushItems) (o : option nat),
              sublist (match o with Some (S idx) => pop (S idx) l | _ => l end) l).
    { intros l [[|idx]|]; try reflexivity. apply sublist_delete. }
    eapply elem_of_sublist; [exact Hx|].
    etransitivity; [apply S2 | apply S1].
  - right. apply list_elem_of_singleton in Hx. subst x. reflexivity.
Qed.

Lemma elem_of_add_all `{World} (items self : PushItems) (x : PushItem) :
  x ∈ add_all self items ->
  x ∈ self \/ exists i, i ∈ items /\ stored i = Some x.
Proof.
  revert self. induction items as [|c items IH]; intros self Hx; [left; exact Hx|].
  apply IH in Hx as [Hx|(i & Hi & Ei)].
  - apply elem_of_add in Hx as [Hx|Hx]; [left; exact Hx|].
    right. exists c. split; [left | exact Hx].
  - right. exists i. split; [right; exact Hi | exact Ei].
Qed.

(** C3, as the code has it. For every pair of registries, [difference]
    feeds the members of [a] whose path is the path of no member of [b]
    through [add], starting from an empty registry; so every member of
    the result is one of those members as [add] stores it. When those
    members have pairwise distinct paths that [add] leaves unchanged, the
    result is exactly those members, unchanged and in their order. *)
Theorem difference_keeps_settled_members `{World} (a b : PushItems) :
  difference a b = add_all [] (kept_members a b)
  /\ (forall x, x ∈ difference a b ->
                exists i, i ∈ kept_members a b /\ stored i = Some x)
  /\ (NoDup (path <$> kept_members a b) ->
      Forall (fun i => settled i = true) (kept_members a b) ->
      difference a b = kept_members a b).
Proof.
  assert (E : difference a b = add_all [] (kept_members a b)).
  { unfold difference. cbv zeta. rewrite kept_members_test. reflexivity. }
  split; [exact E|]. split.
  - intros x Hx. rewrite E in Hx.
    apply elem_of_add_all in Hx as [Hx|Hx]; [|exact Hx].
    apply elem_of_nil in Hx. contradiction.
  - intros Hnd Hs. rewrite E.
    apply (add_all_settled (kept_members a b) []); [constructor | exact Hs | exact Hnd].
Qed.

Lemma difference_keeps_settled_members_witness :
  let i := PushItem4 (PurePath.of_str "ofl/mavenpro") (Some NEW) (Some IN_DEV) "1" in
  let j := PushItem4 (PurePath.of_str "ofl/notosans") (Some UPGRADE) (Some IN_DEV) "2" in
  NoDup (path <$> kept_members [i; j] [j])
  /\ Forall (fun i => @settled example_world i = true) (kept_members [i; j] [j])
  /\ @difference example_world [i; j] [j] = [i].
Proof.
  cbv zeta.
  assert (N : NoDup (path <$> kept_members
                [ PushItem4 (PurePath.of_str "ofl/mavenpro") (Some NEW) (Some IN_DEV) "1";
                  PushItem4 (PurePath.of_str "ofl/notosans") (Some UPGRADE) (Some IN_DEV) "2" ]
                [ PushItem4 (PurePath.of_str "ofl/notosans") (Some UPGRADE) (Some IN_DEV) "2" ])).
  { apply (bool_decide_unpack _). vm_compute. exact I. }
  assert (S : Forall (fun i => @settled example_world i = true) (kept_members
                [ PushItem4 (PurePath.of_str "ofl/mavenpro") (Some NEW) (Some IN_DEV) "1";
                  PushItem4 (PurePath.of_str "ofl/notosans") (Some UPGRADE) (Some IN_DEV) "2" ]
                [ PushItem4 (PurePath.of_str "ofl/notosans") (Some UPGRADE) (Some IN_DEV) "2" ])).
  { repeat constructor. }
  split; [exact N|]. split; [exact S|].
  exact (proj2 (proj2 (@difference_keeps_settled_members example_world _ _)) N S).
Defined.

(** A registry holding the article directory of a family, as [add] leaves
    it for the file [ofl/notosans/article/images/noto.png]. The article
    directory is a directory of the checkout, so [difference] with the
    empty registry returns the member moved to [ofl/notosans], not the
    member itself. *)
Lemma difference_moves_article_directory :
  let a := @add_all example_world []
             [ PushItem4 (PurePath.of_str "ofl/notosans/article/images/noto.png")
                         (Some NEW) (Some IN_DEV) "1" ] in
  a = [ PushItem4 (PurePath.of_str "ofl/notosans/article") (Some NEW) (Some IN_DEV) "1" ]
  /\ kept_members a [] = a
  /\ @difference example_world a []
     = [ PushItem4 (PurePath.of_str "ofl/notosans") (Some NEW) (Some IN_DEV) "1" ]
  /\ @difference example_world a [] <> kept_members a [].
Proof. repeat split; try reflexivity. vm_compute. discriminate. Qed.

Lemma elem_of_without_path (p : Path) (r : PushItems) (x : PushItem) :
  NoDup (path <$> r) -> x ∈ without_path p r -> x ∈ r /\ path x <> p.
Proof.
  intros Hnd Hx. split.
  - eapply elem_of_sublist; [exact Hx | apply without_path_sublist].
  - intros E. destruct (without_path_NoDup p r Hnd) as (_ & Hp).
    apply Hp. subst p. apply list_elem_of_fmap_2, Hx.
Qed.

Lemma add_all_snoc `{World} (self items : PushItems) (b : PushItem) :
  add_all self (items ++ [b]) = add (add_all self items) b.
Proof. unfold add_all. rewrite fold_left_app. reflexivity. Qed.

Lemma path_of_stored `{World} (b b' : PushItem) :
  stored b = Some b' -> add_path (path b) = Some (path b') /\ length (path b') <> 1.
Proof.
  unfold stored. destruct (add_path (path b)) as [p|]; [|discriminate].
  destruct (length p =? 1) eqn:E; [discriminate|].
  intros [= <-]. apply Nat.eqb_neq in E. split; [reflexivity | exact E].
Qed.

(** A member of [add_all self items] that sits at the path [add] gives to
    some member of [items] is one of the items, as [add] stored it. *)
Lemma later_items_win `{World} (self items : PushItems) :
  no_bare_root self -> NoDup (path <$> self) ->
  forall x b b', x ∈ add_all self items -> b ∈ items -> stored b = Some b' ->
                 path x = path b' ->
                 exists c, c ∈ items /\ stored c = Some x.
Proof.
  intros Hself Hnd. induction items as [|c items IH] using rev_ind;
    intros x b b' Hx Hb Hsb Hp.
  - apply elem_of_nil in Hb. contradiction.
  - rewrite add_all_snoc in Hx.
    pose proof (add_all_no_bare_root items self Hself) as Hr.
    pose proof (add_all_NoDup items self Hself Hnd) as Hrn.
    rewrite add_unfold in Hx by assumption.
    assert (Hitems : x ∈ add_all self items -> b ∈ items ->
                     exists c0, c0 ∈ items ++ [c] /\ stored c0 = Some x).
    { intros Hx' Hb'. destruct (IH x b b' Hx' Hb' Hsb Hp) as (c0 & Hc0 & Ec0).
      exists c0. split; [apply elem_of_app; left; exact Hc0 | exact Ec0]. }
    apply elem_of_app in Hb as [Hb|Hb].
    + (* [b] is among the earlier items *)
      destruct (stored c) as [c'|] eqn:Ec.
      * destruct (path_of_stored c c' Ec) as (Ea & El).
        rewrite Ea in Hx. apply Nat.eqb_neq in El. rewrite El in Hx.
        apply elem_of_app in Hx as [Hx|Hx].
        -- apply elem_of_without_path in Hx as (Hx & _); [|exact Hrn].
           apply Hitems; assumption.
        -- apply list_elem_of_singleton in Hx. subst x.
           exists c. split; [apply elem_of_app; right; apply list_elem_of_singleton; reflexivity|].
           rewrite Ec. f_equal. unfold stored in Ec. rewrite Ea, El in Ec.
           injection Ec as <-. reflexivity.
      * apply Hitems; [|exact Hb].
        unfold stored in Ec. destruct (add_path (path c)) as [p|]; [|exact Hx].
        destruct (length p =? 1); [exact Hx | discriminate].
    + (* [b] is the last item *)
      apply list_elem_of_singleton in Hb. subst c.
      destruct (path_of_stored b b' Hsb) as (Ea & El).
      rewrite Ea in Hx. apply Nat.eqb_neq in El. rewrite El in Hx.
      apply elem_of_app in Hx as [Hx|Hx].
      * apply elem_of_without_path in Hx as (_ & Hne); [|exact Hrn].
        contradiction.
      * apply list_elem_of_singleton in Hx. subst x.
        exists b. split; [apply elem_of_app; right; apply list_elem_of_singleton; reflexivity|].
        rewrite Hsb. f_equal. unfold stored in Hsb. rewrite Ea, El in Hsb.
        injection Hsb as <-. reflexivity.
Qed.

(** C4, as the code has it. For every pair of registries, [union] copies
    the members of [a] as they are and feeds only the members of [b]
    through [add]: the union with the empty registry is [a] itself, and
    every member of a union is a member of [a] or a member of [b] as
    [add] stores it. When the members of [a] have pairwise distinct
    paths, none of one part, a member of the union at a path that [add]
    gives to a member of [b] comes from [b]. When the members of [a] have
    pairwise distinct paths that [add] leaves unchanged, the union is the
    registry obtained from the empty one by feeding the members of [a]
    and then those of [b] through [add]. *)
Theorem union_replays_other_onto_self `{World} (a b : PushItems) :
  union a b = add_all a b
  /\ union a [] = a
  /\ (forall x, x ∈ union a b -> x ∈ a \/ exists i, i ∈ b /\ stored i = Some x)
  /\ (no_bare_root a -> NoDup (path <$> a) ->
      forall x i i', x ∈ union a b -> i ∈ b -> stored i = Some i' ->
                     path x = path i' ->
                     exists j, j ∈ b /\ stored j = Some x)
  /\ (NoDup (path <$> a) -> Forall (fun i => settled i = true) a ->
      union a b = add_all [] (a ++ b)).
Proof.
  split; [reflexivity|]. split; [reflexivity|]. split; [|split].
  - intros x Hx. apply elem_of_add_all, Hx.
  - intros Hr Hnd. apply later_items_win; assumption.
  - intros Hnd Hs. unfold union, add_all. cbv zeta. rewrite fold_left_app. f_equal.
    symmetry. apply (add_all_settled a []); [constructor | exact Hs | exact Hnd].
Qed.

Lemma union_replays_other_onto_self_witness :
  let i := PushItem4 (PurePath.of_str "ofl/mavenpro") (Some NEW) (Some IN_DEV) "1" in
  let j := PushItem4 (PurePath.of_str "ofl/mavenpro/METADATA.pb") (Some UPGRADE) (Some IN_DEV) "2" in
  let j' := PushItem4 (PurePath.of_str "ofl/mavenpro") (Some UPGRADE) (Some IN_DEV) "2" in
  no_bare_root [i] /\ NoDup (path <$> [i])
  /\ Forall (fun i => @settled example_world i = true) [i]
  /\ @union example_world [i] [j] = [j']
  /\ (exists c, c ∈ [j] /\ @stored example_world c = Some j')
  /\ @union example_world [i] [j] = @add_all example_world [] ([i] ++ [j]).
Proof.
  cbv zeta.
  assert (R : no_bare_root
                [ PushItem4 (PurePath.of_str "ofl/mavenpro") (Some NEW) (Some IN_DEV) "1" ]).
  { constructor; [vm_compute; discriminate | constructor]. }
  assert (N : NoDup (path <$>
                [ PushItem4 (PurePath.of_str "ofl/mavenpro") (Some NEW) (Some IN_DEV) "1" ])).
  { apply NoDup_singleton. }
  assert (S : Forall (fun i => @settled example_world i = true)
                [ PushItem4 (PurePath.of_str "ofl/mavenpro") (Some NEW) (Some IN_DEV) "1" ]).
  { repeat constructor. }
  pose proof (@union_replays_other_onto_self example_world
                [ PushItem4 (PurePath.of_str "ofl/mavenpro") (Some NEW) (Some IN_DEV) "1" ]
                [ PushItem4 (PurePath.of_str "ofl/mavenpro/METADATA.pb")
                            (Some UPGRADE) (Some IN_DEV) "2" ])
    as (_ & _ & _ & W & U).
  split; [exact R|]. split; [exact N|]. split; [exact S|].
  split; [vm_compute; reflexivity|].
  split; [|exact (U N S)].
  apply (W R N
           (PushItem4 (PurePath.of_str "ofl/mavenpro") (Some UPGRADE) (Some IN_DEV) "2")
           (PushItem4 (PurePath.of_str "ofl/mavenpro/METADATA.pb")
                      (Some UPGRADE) (Some IN_DEV) "2")
           (PushItem4 (PurePath.of_str "ofl/mavenpro") (Some UPGRADE) (Some IN_DEV) "2")).
  - vm_compute. left.
  - left.
  - vm_compute. reflexivity.
  - reflexivity.
Defined.

(** The registry that [add] leaves for the file
    [ofl/notosans/article/images/noto.png] holds the article directory.
    Its union with the empty registry is the registry itself, while
    feeding its member through [add] from the empty registry gives a
    member at [ofl/notosans]. *)
Lemma union_does_not_replay_self :
  let a := @add_all example_world []
             [ PushItem4 (PurePath.of_str "ofl/notosans/article/images/noto.png")
                         (Some NEW) (Some IN_DEV) "1" ] in
  @union example_world a [] = a
  /\ @add_all example_world [] (a ++ [])
     = [ PushItem4 (PurePath.of_str "ofl/notosans") (Some NEW) (Some IN_DEV) "1" ]
  /\ @union example_world a [] <> @add_all example_world [] (a ++ []).
Proof. repeat split; try reflexivity. vm_compute. discriminate. Qed.

(** ** The push-list progression *)

(** The mutation that [set_pushlist] sends for the option [l]. *)
Lemma set_pushlist_calls `{Board} (l : LIST_OPTION_IDS) (s : Session) :
  let m := mkMutation TRAFFIC_JAM_ID (id_ (self_item s)) LIST_FIELD_ID
                      (ListOption.value l) in
  board_calls (set_pushlist l s).2 = board_calls s ++ [m]
  /\ printed (set_pushlist l s).2 = printed s.
Proof.
  cbv zeta. unfold set_pushlist, run_graphql.
  destruct (graphql_returns _ _); [|split; reflexivity].
  repeat (destruct (ListOption.eqb _ _)); split; reflexivity.
Qed.

Lemma set_pushlist_raises `{Board} (l : LIST_OPTION_IDS) (s : Session) :
  graphql_returns (board_calls s)
    (mkMutation TRAFFIC_JAM_ID (id_ (self_item s)) LIST_FIELD_ID (ListOption.value l))
  = false ->
  (set_pushlist l s).1 = Raised TransportError
  /\ self_item (set_pushlist l s).2 = self_item s.
Proof.
  intros E. unfold set_pushlist, run_graphql. rewrite E. split; reflexivity.
Qed.

(** C9, as the code has it. [bump_pushlist] sends exactly one mutation to
    the board from [None] and from [TO_SANDBOX]. When the call raises,
    the exception reaches the caller and the item is as it was. When it
    returns, the item's [push_list] becomes [TO_SANDBOX] from [None];
    from [TO_SANDBOX] it becomes [TO_PRODUCTION] where the option ids of
    the two lists differ, and stays [TO_SANDBOX] where they are equal,
    the two names of [LIST_OPTION_IDS] then being one member. From
    [TO_PRODUCTION] the method returns with the item unchanged and no
    call made. In no case is the item changed unless the single call has
    returned. *)
Theorem bump_pushlist_progression `{Board} (s : Session) :
  let r := (bump_pushlist s).1 in
  let s' := (bump_pushlist s).2 in
  let sent next :=
    mkMutation TRAFFIC_JAM_ID (id_ (self_item s)) LIST_FIELD_ID (ListOption.value next) in
  let advances next target :=
    board_calls s' = board_calls s ++ [sent next]
    /\ (if graphql_returns (board_calls s) (sent next)
        then r = Ok tt /\ self_item s' = set_push_list (self_item s) (Some target)
        else r = Raised TransportError /\ self_item s' = self_item s) in
  match push_list (self_item s) with
  | None => advances IDS_TO_SANDBOX TO_SANDBOX
  | Some TO_SANDBOX =>
      advances IDS_TO_PRODUCTION
               (if bool_decide (TO_SANDBOX_ID = TO_PRODUCTION_ID)
                then TO_SANDBOX else TO_PRODUCTION)
  | Some TO_PRODUCTION =>
      r = Ok tt /\ self_item s' = self_item s /\ board_calls s' = board_calls s
  | Some LIST_BLOCKED => self_item s' = self_item s /\ board_calls s' = board_calls s
  end.
Proof.
  cbv zeta. unfold bump_pushlist.
  destruct (push_list (self_item s)) as [[| |]|].
  - (* TO_SANDBOX *)
    split; [apply set_pushlist_calls|].
    unfold set_pushlist, run_graphql.
    destruct (graphql_returns _ _); [|split; reflexivity].
    unfold ListOption.eqb. simpl ListOption.value.
    destruct (decide (TO_SANDBOX_ID = TO_PRODUCTION_ID)) as [E|E].
    + rewrite (bool_decide_eq_true_2 (TO_PRODUCTION_ID = TO_SANDBOX_ID)) by congruence.
      rewrite (bool_decide_eq_true_2 (TO_SANDBOX_ID = TO_PRODUCTION_ID)) by assumption.
      split; reflexivity.
    + rewrite (bool_decide_eq_false_2 (TO_PRODUCTION_ID = TO_SANDBOX_ID)) by congruence.
      rewrite (bool_decide_eq_false_2 (TO_SANDBOX_ID = TO_PRODUCTION_ID)) by assumption.
      rewrite bool_decide_eq_true_2 by reflexivity.
      split; reflexivity.
  - repeat split.
  - repeat split.
  - (* None *)
    split; [apply set_pushlist_calls|].
    unfold set_pushlist, run_graphql.
    destruct (graphql_returns _ _); [|split; reflexivity].
    unfold ListOption.eqb. rewrite bool_decide_eq_true_2 by reflexivity.
    split; reflexivity.
Qed.

Lemma bump_pushlist_progression_witness :
  let item := PushItem4 (PurePath.of_str "ofl/mavenpro") (Some NEW) (Some IN_DEV) "1" in
  let s0 := mkSession item [] [] in
  let s1 := (@bump_pushlist example_board s0).2 in
  let s2 := (@bump_pushlist example_board s1).2 in
  let s3 := (@bump_pushlist example_board s2).2 in
  @TO_SANDBOX_ID example_board <> @TO_PRODUCTION_ID example_board
  /\ (push_list (self_item s1) = Some TO_SANDBOX /\ length (board_calls s1) = 1)
  /\ (push_list (self_item s2) = Some TO_PRODUCTION /\ length (board_calls s2) = 2)
  /\ ((@bump_pushlist example_board s2).1 = Ok tt
      /\ self_item s3 = self_item s2 /\ board_calls s3 = board_calls s2).
Proof.
  cbv zeta.
  assert (D : @TO_SANDBOX_ID example_board <> @TO_PRODUCTION_ID example_board)
    by discriminate.
  split; [exact D|].
  split; [split; [|reflexivity]|].
  { exact (f_equal push_list
             (proj2 (proj2 (@bump_pushlist_progression example_board
                              (mkSession
                                 (PushItem4 (PurePath.of_str "ofl/mavenpro") (Some NEW)
                                            (Some IN_DEV) "1") [] []))))). }
  split; [split; [|reflexivity]|].
  { exact (f_equal push_list
             (proj2 (proj2 (@bump_pushlist_progression example_board
                              (mkSession
                                 (set_push_list
                                    (PushItem4 (PurePath.of_str "ofl/mavenpro") (Some NEW)
                                               (Some IN_DEV) "1")
                                    (Some TO_SANDBOX))
                                 [ mkMutation (Some ("PVT_1" : str)) None
                                              (Some ("F_list" : str))
                                              (Some ("opt_sandbox" : str)) ]
                                 []))))). }
  exact (@bump_pushlist_progression example_board
           (mkSession
              (set_push_list
                 (PushItem4 (PurePath.of_str "ofl/mavenpro") (Some NEW) (Some IN_DEV) "1")
                 (Some TO_PRODUCTION))
              [ mkMutation (Some ("PVT_1" : str)) None (Some ("F_list" : str))
                           (Some ("opt_sandbox" : str));
                mkMutation (Some ("PVT_1" : str)) None (Some ("F_list" : str))
                           (Some ("opt_production" : str)) ]
              [])).
Defined.

(** With no option id configured, an item on the list [TO_SANDBOX] is
    bumped: the call to the board is made and returns, the method
    returns, and the item is still on [TO_SANDBOX]. Starting from no list
    at all, two bumps make two calls and end on [TO_SANDBOX]. *)
Lemma bump_with_unset_ids_stays_in_sandbox :
  let item := PushItem4 (PurePath.of_str "ofl/mavenpro") (Some NEW) (Some IN_DEV) "1" in
  let s0 := mkSession item [] [] in
  let s1 := (@bump_pushlist unset_board s0).2 in
  let s2 := (@bump_pushlist unset_board s1).2 in
  @TO_SANDBOX_ID unset_board = @TO_PRODUCTION_ID unset_board
  /\ (push_list (self_item s1) = Some TO_SANDBOX /\ length (board_calls s1) = 1)
  /\ (@bump_pushlist unset_board s1).1 = Ok tt
  /\ length (board_calls s2) = 2
  /\ push_list (self_item s2) = Some TO_SANDBOX
  /\ push_list (self_item s2) <> Some TO_PRODUCTION.
Proof. repeat split. vm_compute. discriminate. Qed.

(** C10. On an item whose [push_list] is [BLOCKED], [bump_pushlist]
    raises [ValueError]: no call is made to the board and the item, with
    its [push_list], is as it was. *)
Theorem bump_pushlist_blocked_raises `{Board} (item : PushItem)
    (calls : list Mutation) (out : list str) :
  let s := mkSession (set_push_list item (Some LIST_BLOCKED)) calls out in
  bump_pushlist s = (Raised ValueError, s)
  /\ board_calls (bump_pushlist s).2 = calls
  /\ push_list (self_item (bump_pushlist s).2) = Some LIST_BLOCKED.
Proof. repeat split. Qed.

(** ** Ordering of strings and paths *)

Section Lex.
Context {A : Type} (eqb ltb : A -> A -> bool).
Hypothesis eqb_spec : forall x y, eqb x y = true <-> x = y.
Hypothesis ltb_asym : forall x y, ltb x y = true -> ltb y x = false.
Hypothesis ltb_total : forall x y, ltb x y = false -> ltb y x = false -> x = y.

Lemma eqb_sym_false x y : eqb x y = false -> eqb y x = false.
Proof using eqb_spec.
  intros E. destruct (eqb y x) eqn:E'; [|reflexivity].
  apply eqb_spec in E'. subst. rewrite (proj2 (eqb_spec x x) eq_refl) in E.
  discriminate.
Qed.

Lemma lex_ltb_asym a b :
  lex_ltb eqb ltb a b = true -> lex_ltb eqb ltb b a = false.
Proof using eqb_spec ltb_asym.
  revert b. induction a as [|x a IH]; intros [|y b]; simpl; try congruence.
  destruct (eqb x y) eqn:E.
  - apply eqb_spec in E. subst. rewrite (proj2 (eqb_spec y y) eq_refl). apply IH.
  - rewrite (eqb_sym_false _ _ E). apply ltb_asym.
Qed.

Lemma lex_ltb_total a b :
  lex_ltb eqb ltb a b = false -> lex_ltb eqb ltb b a = false -> a = b.
Proof using eqb_spec ltb_total.
  revert b. induction a as [|x a IH]; intros [|y b]; simpl; try congruence.
  destruct (eqb x y) eqn:E.
  - apply eqb_spec in E. subst. rewrite (proj2 (eqb_spec y y) eq_refl).
    intros H1 H2. f_equal. apply IH; assumption.
  - rewrite (eqb_sym_false _ _ E). intros H1 H2.
    rewrite (ltb_total x y H1 H2) in E.
    rewrite (proj2 (eqb_spec y y) eq_refl) in E. discriminate.
Qed.
Hypothesis ltb_trans : forall x y z, ltb x y = true -> ltb y z = true -> ltb x z = true.

Lemma lex_ltb_trans a b c :
  lex_ltb eqb ltb a b = true -> lex_ltb eqb ltb b c = true ->
  lex_ltb eqb ltb a c = true.
Proof using eqb_spec ltb_asym ltb_trans.
  revert b c. induction a as [|x a IH]; intros [|y b] [|z c]; simpl; try congruence.
  destruct (eqb x y) eqn:Exy.
  - apply eqb_spec in Exy. subst y. destruct (eqb x z); [apply IH | congruence].
  - destruct (eqb y z) eqn:Eyz.
    + apply eqb_spec in Eyz. subst z. rewrite Exy. congruence.
    + intros Lxy Lyz. destruct (eqb x z) eqn:Exz.
      * apply eqb_spec in Exz. subst z.
        rewrite (ltb_asym _ _ Lxy) in Lyz. discriminate.
      * eapply ltb_trans; eassumption.
Qed.

End Lex.

Lemma ascii_eqb_spec (x y : ascii) : Ascii.eqb x y = true <-> x = y.
Proof. apply Ascii.eqb_eq. Qed.

Lemma str_ltb_asym (a b : str) : PyStr.ltb a b = true -> PyStr.ltb b a = false.
Proof.
  apply lex_ltb_asym; [apply ascii_eqb_spec|].
  intros x y L. apply Nat.ltb_lt in L. apply Nat.ltb_ge. lia.
Qed.

Lemma str_ltb_total (a b : str) :
  PyStr.ltb a b = false -> PyStr.ltb b a = false -> a = b.
Proof.
  apply lex_ltb_total; [apply ascii_eqb_spec|].
  intros x y L1 L2. apply Nat.ltb_ge in L1, L2.
  rewrite <- (ascii_nat_embedding x), <- (ascii_nat_embedding y).
  f_equal. lia.
Qed.

Lemma path_ltb_asym (p q : Path) : PurePath.ltb p q = true -> PurePath.ltb q p = false.
Proof. apply lex_ltb_asym; [apply eqb_true | apply str_ltb_asym]. Qed.

Lemma path_ltb_total (p q : Path) :
  PurePath.ltb p q = false -> PurePath.ltb q p = false -> p = q.
Proof. apply lex_ltb_total; [apply eqb_true | apply str_ltb_total]. Qed.

Lemma str_ltb_trans (a b c : str) :
  PyStr.ltb a b = true -> PyStr.ltb b c = true -> PyStr.ltb a c = true.
Proof.
  apply lex_ltb_trans; [apply ascii_eqb_spec | |].
  - intros x y L. apply Nat.ltb_lt in L. apply Nat.ltb_ge. lia.
  - intros x y z L1 L2. apply Nat.ltb_lt in L1, L2. apply Nat.ltb_lt. lia.
Qed.

Lemma path_ltb_trans (p q r : Path) :
  PurePath.ltb p q = true -> PurePath.ltb q r = true -> PurePath.ltb p r = true.
Proof.
  apply lex_ltb_trans; [apply eqb_true | apply str_ltb_asym | apply str_ltb_trans].
Qed.

(** ** Sorting a set of items by path *)

Lemma insert_by_path_perm (x : PushItem) (l : list PushItem) :
  insert_by_path x l ≡ₚ x :: l.
Proof.
  induction l as [|y l IH]; simpl; [reflexivity|].
  destruct (PurePath.ltb (path y) (path x)); [|reflexivity].
  rewrite IH. apply Permutation_swap.
Qed.

Lemma sorted_by_path_perm (l : list PushItem) : sorted_by_path l ≡ₚ l.
Proof.
  induction l as [|x l IH]; simpl; [reflexivity|].
  rewrite insert_by_path_perm, IH. reflexivity.
Qed.

Lemma insert_by_path_sorted (x : PushItem) (l : list PushItem) :
  Sorted path_le l -> Sorted path_le (insert_by_path x l).
Proof.
  induction l as [|y l IH]; intros S; simpl.
  - repeat constructor.
  - destruct (PurePath.ltb (path y) (path x)) eqn:E.
    + inversion S as [|? ? S' Hd]; subst. specialize (IH S').
      constructor; [exact IH|].
      destruct l as [|z l]; simpl.
      * constructor. apply path_ltb_asym, E.
      * destruct (PurePath.ltb (path z) (path x)).
        -- inversion Hd; subst. constructor. assumption.
        -- constructor. apply path_ltb_asym, E.
    + constructor; [exact S | constructor; exact E].
Qed.

Lemma sorted_by_path_sorted (l : list PushItem) : Sorted path_le (sorted_by_path l).
Proof.
  induction l as [|x l IH]; simpl; [constructor | apply insert_by_path_sorted, IH].
Qed.

(** Sorting a list that is in order returns it. *)
Lemma sorted_by_path_of_sorted (l : list PushItem) :
  Sorted path_le l -> sorted_by_path l = l.
Proof.
  induction l as [|x l IH]; intros S; [reflexivity|].
  inversion S as [|? ? S' Hd]; subst. simpl. rewrite (IH S').
  destruct l as [|y l]; [reflexivity|]. simpl.
  inversion Hd; subst. rewrite H0. reflexivity.
Qed.

Lemma sorted_le_NoDup_lt (l : list PushItem) :
  NoDup (path <$> l) -> Sorted path_le l -> Sorted path_lt l.
Proof.
  induction l as [|x l IH]; intros N S; [constructor|].
  inversion S as [|? ? S' Hd]; subst. simpl in N.
  apply NoDup_cons in N as (Nx & N).
  constructor; [apply IH; assumption|].
  destruct l as [|y l]; constructor.
  inversion Hd; subst. unfold path_lt.
  destruct (PurePath.ltb (path x) (path y)) eqn:E; [reflexivity|].
  exfalso. apply Nx. rewrite (path_ltb_total _ _ E H0). simpl. left.
Qed.

Lemma sorted_by_path_nil (l : list PushItem) : sorted_by_path l = [] <-> l = [].
Proof.
  split; [|intros ->; reflexivity].
  intros E. pose proof (sorted_by_path_perm l) as P. rewrite E in P.
  apply Permutation.Permutation_nil in P. exact P.
Qed.

Lemma path_lt_trans : Transitive path_lt.
Proof. intros x y z. unfold path_lt. apply path_ltb_trans. Qed.

Lemma sorted_head_least (x : PushItem) (l : list PushItem) :
  Sorted path_lt (x :: l) -> Forall (path_lt x) l.
Proof.
  intros S. apply (Sorted_StronglySorted path_lt_trans) in S.
  inversion S; subst. assumption.
Qed.

(** A list in strictly increasing order of path is determined by its
    members. *)
Lemma sorted_unique (l l' : list PushItem) :
  Sorted path_lt l -> Sorted path_lt l' -> l ≡ₚ l' -> l = l'.
Proof.
  revert l'. induction l as [|x l IH]; intros l' S S' P.
  - apply Permutation.Permutation_nil in P. congruence.
  - destruct l' as [|y l'].
    { symmetry in P. apply Permutation.Permutation_nil in P. discriminate. }
    pose proof (sorted_head_least x l S) as Hx.
    pose proof (sorted_head_least y l' S') as Hy.
    rewrite Forall_forall in Hx, Hy.
    assert (E : x = y).
    { assert (Hin : x ∈ y :: l') by (rewrite <- P; left).
      assert (Hin' : y ∈ x :: l) by (rewrite P; left).
      apply elem_of_cons in Hin as [?|Hin]; [assumption|].
      apply elem_of_cons in Hin' as [?|Hin']; [congruence|].
      specialize (Hx y Hin'). specialize (Hy x Hin). unfold path_lt in Hx, Hy.
      rewrite (path_ltb_asym _ _ Hx) in Hy. discriminate. }
    subst y. f_equal. apply IH.
    + inversion S; assumption.
    + inversion S'; assumption.
    + eapply Permutation.Permutation_cons_inv, P.
Qed.

(** Sorting a set gives the same list in whichever order the set is
    iterated. *)
Lemma sorted_by_path_unique (l l' : list PushItem) :
  NoDup (path <$> l) -> l ≡ₚ l' -> sorted_by_path l = sorted_by_path l'.
Proof.
  intros N P. apply sorted_unique.
  - apply sorted_le_NoDup_lt; [|apply sorted_by_path_sorted].
    rewrite (sorted_by_path_perm l). exact N.
  - apply sorted_le_NoDup_lt; [|apply sorted_by_path_sorted].
    rewrite (sorted_by_path_perm l'), <- P. exact N.
  - rewrite !sorted_by_path_perm. exact P.
Qed.

(** ** The bins of [to_server_file] *)

Lemma value_inj (c c' : PushCategory) : Category.value c = Category.value c' -> c = c'.
Proof. destruct c, c'; intros E; try reflexivity; vm_compute in E; discriminate. Qed.

Lemma set_add_not_nil (x : PushItem) (s : list PushItem) : set_add x s <> [].
Proof.
  unfold set_add. destruct (existsb _ s) eqn:E.
  - intros ->. discriminate.
  - destruct s; discriminate.
Qed.

Lemma set_add_elem (x : PushItem) (s : list PushItem) (i : PushItem) :
  i ∈ set_add x s -> i ∈ s \/ i = x.
Proof.
  unfold set_add. destruct (existsb _ s); [left; assumption|].
  rewrite elem_of_app, list_elem_of_singleton. tauto.
Qed.

Lemma set_add_paths (x : PushItem) (s : list PushItem) :
  NoDup (path <$> s) ->
  NoDup (path <$> set_add x s)
  /\ forall p, p ∈ path <$> set_add x s <-> p ∈ (path <$> s) \/ p = path x.
Proof.
  intros N. unfold set_add. destruct (existsb _ s) eqn:E.
  - split; [exact N|]. intros p. split; [tauto|]. intros [?| ->]; [assumption|].
    apply existsb_exists in E as (j & Hj & Ej). apply path_eqb_true in Ej.
    rewrite Ej. apply list_elem_of_fmap_2, list_elem_of_In, Hj.
  - assert (Hx : path x ∉ path <$> s).
    { intros Hin. apply list_elem_of_fmap in Hin as (j & Ej & Hj).
      apply not_true_iff_false in E. apply E. apply existsb_exists.
      exists j. split; [apply list_elem_of_In, Hj | apply path_eqb_true, Ej]. }
    rewrite fmap_app. simpl. split.
    + apply NoDup_app. repeat split; [exact N | | apply NoDup_singleton].
      intros p Hp Hp'. apply list_elem_of_singleton in Hp'. subst. contradiction.
    + intros p. rewrite elem_of_app, list_elem_of_singleton. tauto.
Qed.

Lemma fold_set_add (l acc : list PushItem) :
  NoDup (path <$> acc) ->
  let r := fold_left (fun s i => set_add i s) l acc in
  NoDup (path <$> r)
  /\ (forall i, i ∈ r -> i ∈ acc \/ i ∈ l)
  /\ (forall p, p ∈ path <$> r <-> p ∈ (path <$> acc) \/ p ∈ (path <$> l)).
Proof.
  revert acc. induction l as [|x l IH]; intros acc N; cbv zeta; simpl.
  - split; [exact N|]. split; [tauto|]. intros p. rewrite elem_of_nil. tauto.
  - destruct (set_add_paths x acc N) as (N' & Hp).
    destruct (IH (set_add x acc) N') as (N'' & Hin & Hpaths).
    split; [exact N''|]. split.
    + intros i Hi. destruct (Hin i Hi) as [Hi'|Hi'].
      * apply set_add_elem in Hi' as [?| ->]; [left; assumption | right; left].
      * right; right; assumption.
    + intros p. rewrite Hpaths, Hp, elem_of_cons. tauto.
Qed.

Lemma bin_of_spec (c : PushCategory) (self : PushItems) :
  NoDup (path <$> bin_of c self)
  /\ (forall i, i ∈ bin_of c self -> i ∈ self /\ category i = Some c)
  /\ (forall i, i ∈ self -> category i = Some c -> path i ∈ path <$> bin_of c self).
Proof.
  unfold bin_of.
  destruct (fold_set_add (List.filter (fun i => bool_decide (category i = Some c)) self) [])
    as (N & Hin & Hp); [constructor|].
  split; [exact N|]. split.
  - intros i Hi. destruct (Hin i Hi) as [Hi'|Hi']; [apply elem_of_nil in Hi'; contradiction|].
    apply list_elem_of_In, filter_In in Hi' as (Hi' & E).
    apply bool_decide_eq_true in E. split; [apply list_elem_of_In, Hi' | exact E].
  - intros i Hi E. apply Hp. right. apply list_elem_of_fmap_2, list_elem_of_In, filter_In.
    split; [apply list_elem_of_In, Hi | apply bool_decide_eq_true, E].
Qed.

Lemma bin_of_snoc (c : PushCategory) (self : PushItems) (x : PushItem) :
  bin_of c (self ++ [x]) =
    if bool_decide (category x = Some c) then set_add x (bin_of c self)
    else bin_of c self.
Proof.
  unfold bin_of. rewrite List.filter_app. simpl.
  destruct (bool_decide (category x = Some c)).
  - rewrite fold_left_app. reflexivity.
  - rewrite app_nil_r. reflexivity.
Qed.

Lemma for_each_snoc {A S} (body : S -> A -> Outcome S) (xs : list A) (x : A) (s : S) :
  for_each body (xs ++ [x]) s = (for_each body xs s ≫= fun s' => body s' x).
Proof.
  revert s. induction xs as [|y xs IH]; intros s; simpl.
  - destruct (body s x); reflexivity.
  - unfold mbind, Outcome_bind at 1 3. destruct (body s y); [apply IH | reflexivity].
Qed.

Lemma default_bin_lookup (c : PushCategory) (self : PushItems) :
  c <> BLOCKED -> default [] (bin_lookup c self) = bin_of c self.
Proof.
  intros Hc. unfold bin_lookup. rewrite bool_decide_eq_false_2 by assumption.
  destruct (bin_of c self); reflexivity.
Qed.

(** The dictionary built by the first loop of [to_server_file]. *)
Lemma to_bins_spec (self : PushItems) :
  Forall (fun i => is_Some (category i)) self ->
  exists bins, to_bins self = Ok bins
               /\ forall c, bins !! Category.value c = bin_lookup c self.
Proof.
  induction self as [|x self IH] using rev_ind; intros Hc.
  - exists ∅. split; [reflexivity|]. intros c. rewrite lookup_empty.
    unfold bin_lookup. destruct (bool_decide (c = BLOCKED)); reflexivity.
  - apply Forall_app in Hc as (Hself & Hx). apply Forall_cons_1 in Hx as (Hx & _).
    destruct (IH Hself) as (bins & E & Hb). destruct Hx as [cx Ecx].
    unfold to_bins in *. rewrite for_each_snoc, E. simpl. rewrite Ecx.
    destruct (decide (cx = BLOCKED)) as [->|Hcx].
    + exists bins. split; [reflexivity|]. intros c. rewrite Hb.
      unfold bin_lookup. rewrite bin_of_snoc, Ecx.
      destruct (decide (c = BLOCKED)) as [->|Hne].
      * rewrite bool_decide_eq_true_2 by reflexivity. reflexivity.
      * rewrite (bool_decide_eq_false_2 (Some BLOCKED = Some c)) by congruence.
        reflexivity.
    + exists (<[Category.value cx := set_add x (default [] (bins !! Category.value cx))]> bins).
      split; [destruct cx; try reflexivity; contradiction|].
      intros c. destruct (decide (c = cx)) as [->|Hne].
      * rewrite lookup_insert_eq, Hb, default_bin_lookup by assumption.
        unfold bin_lookup. rewrite bool_decide_eq_false_2 by assumption.
        rewrite bin_of_snoc, Ecx, bool_decide_eq_true_2 by reflexivity.
        pose proof (set_add_not_nil x (bin_of cx self)).
        destruct (set_add x (bin_of cx self)); [contradiction | reflexivity].
      * rewrite lookup_insert_ne by (intros E'; apply value_inj in E'; congruence).
        rewrite Hb. unfold bin_lookup. rewrite bin_of_snoc, Ecx.
        rewrite (bool_decide_eq_false_2 (Some cx = Some c)) by congruence.
        reflexivity.
Qed.

Lemma flat_map_fmap {A B C} (f : B -> list C) (g : A -> B) (l : list A) :
  flat_map f (g <$> l) = flat_map (fun x => f (g x)) l.
Proof. induction l as [|x l IH]; simpl; [reflexivity | f_equal; exact IH]. Qed.

Lemma group_lines_of_bin `{World} (c : PushCategory) (self : PushItems) :
  match bin_lookup c self with
  | None => []
  | Some s => [("# " : str) ++ Category.value c]
              ++ (server_line <$> sorted_by_path s) ++ [([] : str)]
  end = group_lines c (listed c self).
Proof.
  unfold bin_lookup, listed. destruct (bool_decide (c = BLOCKED)); [reflexivity|].
  destruct (bin_of c self) as [|i s] eqn:E; [reflexivity|].
  destruct (sorted_by_path (i :: s)) as [|j g] eqn:Es; [|reflexivity].
  apply (proj1 (sorted_by_path_nil _)) in Es. discriminate.
Qed.

(** The text written by [to_server_file], group by group. *)
Lemma to_server_file_groups `{World} (self : PushItems) :
  Forall (fun i => is_Some (category i)) self ->
  to_server_file self =
    Ok (PyStr.join [NL]
          (flat_map (fun c => group_lines c (listed c self)) Category.members)).
Proof.
  intros Hc. destruct (to_bins_spec self Hc) as (bins & E & Hb).
  unfold to_server_file. rewrite E. unfold mbind, Outcome_bind. do 2 f_equal.
  unfold Category.values. rewrite flat_map_fmap.
  apply flat_map_ext. intros c. rewrite Hb. apply group_lines_of_bin.
Qed.

Lemma listed_spec (c : PushCategory) (self : PushItems) :
  Sorted path_lt (listed c self)
  /\ NoDup (path <$> listed c self)
  /\ (forall i, i ∈ listed c self -> i ∈ self /\ category i = Some c /\ c <> BLOCKED)
  /\ (forall i, c <> BLOCKED -> i ∈ self -> category i = Some c ->
                path i ∈ path <$> listed c self).
Proof.
  unfold listed. destruct (decide (c = BLOCKED)) as [->|Hc].
  - rewrite bool_decide_eq_true_2 by reflexivity. simpl.
    split; [constructor|]. split; [constructor|].
    split; [intros i Hi; apply elem_of_nil in Hi; contradiction | congruence].
  - rewrite bool_decide_eq_false_2 by assumption.
    destruct (bin_of_spec c self) as (N & Hin & Hp).
    assert (N' : NoDup (path <$> sorted_by_path (bin_of c self))).
    { rewrite (sorted_by_path_perm (bin_of c self)). exact N. }
    split; [apply sorted_le_NoDup_lt; [exact N' | apply sorted_by_path_sorted]|].
    split; [exact N'|]. split.
    + intros i Hi. rewrite (sorted_by_path_perm (bin_of c self)) in Hi.
      destruct (Hin i Hi). auto.
    + intros i _ Hi E. rewrite (sorted_by_path_perm (bin_of c self)). apply Hp; assumption.
Qed.

(** C6. For a registry whose members all carry a category,
    [to_server_file] writes, for the categories in declaration order, the
    group of each category that has members: the line [# <value>], one
    line per member, and an empty line. A group holds members of its
    category only, one for every path present in that category, in
    strictly increasing order of path; [BLOCKED] has no group. Where
    [a/b] and [a/c] are on disk, the registry of one [NEW] item at [a/c]
    with url 46 and one [UPGRADE] item at [a/b] with url 45 gives exactly
    the text of [example_manifest], in whichever order the two were
    stored. *)
Theorem to_server_file_layout `{World} (self : PushItems) (st : option PushStatus) :
  Forall (fun i => is_Some (category i)) self ->
  let new := PushItem4 (PurePath.of_str "a/c") (Some NEW) st "46" in
  let upgrade := PushItem4 (PurePath.of_str "a/b") (Some UPGRADE) st "45" in
  to_server_file self =
    Ok (PyStr.join [NL]
          (flat_map (fun c => group_lines c (listed c self)) Category.members))
  /\ listed BLOCKED self = []
  /\ (forall c, Sorted path_lt (listed c self))
  /\ (forall c i, i ∈ listed c self -> i ∈ self /\ category i = Some c /\ c <> BLOCKED)
  /\ (forall c i, c <> BLOCKED -> i ∈ self -> category i = Some c ->
                  path i ∈ path <$> listed c self)
  /\ (path_exists (google_path_to_repo_path (PurePath.of_str "a/b")) = true ->
      path_exists (google_path_to_repo_path (PurePath.of_str "a/c")) = true ->
      to_server_file [new; upgrade] = Ok example_manifest
      /\ to_server_file [upgrade; new] = Ok example_manifest).
Proof.
  intros Hc. cbv zeta.
  split; [apply to_server_file_groups, Hc|].
  split; [reflexivity|].
  split; [intros c; apply listed_spec|].
  split; [intros c; apply listed_spec|].
  split; [intros c; apply listed_spec|].
  intros Hb Hcc. vm_compute in Hb, Hcc.
  split; vm_compute; rewrite Hb, Hcc; reflexivity.
Qed.

Lemma to_server_file_layout_witness :
  let new := PushItem4 (PurePath.of_str "a/c") (Some NEW) (Some IN_DEV) "46" in
  let upgrade := PushItem4 (PurePath.of_str "a/b") (Some UPGRADE) (Some IN_DEV) "45" in
  Forall (fun i => is_Some (category i)) [upgrade; new]
  /\ @path_exists example_world
       (@google_path_to_repo_path example_world (PurePath.of_str "a/b")) = true
  /\ @path_exists example_world
       (@google_path_to_repo_path example_world (PurePath.of_str "a/c")) = true
  /\ @to_server_file example_world [upgrade; new] = Ok example_manifest.
Proof.
  cbv zeta.
  assert (F : Forall (fun i => is_Some (category i))
                [ PushItem4 (PurePath.of_str "a/b") (Some UPGRADE) (Some IN_DEV) "45";
                  PushItem4 (PurePath.of_str "a/c") (Some NEW) (Some IN_DEV) "46" ]).
  { repeat constructor; eexists; reflexivity. }
  split; [exact F|]. split; [reflexivity|]. split; [reflexivity|].
  exact (proj2 (proj2 (proj2 (proj2 (proj2 (proj2
           (@to_server_file_layout example_world _ (Some IN_DEV) F)))))
           eq_refl eq_refl)).
Defined.

(** ** Splitting, joining, stripping and replacing *)

Lemma has_char_app (c : ascii) (a b : str) :
  PyStr.has_char c (a ++ b) = PyStr.has_char c a || PyStr.has_char c b.
Proof. unfold PyStr.has_char. apply existsb_app. Qed.

Lemma split_without_sep (sep : ascii) (s : str) :
  PyStr.has_char sep s = false -> PyStr.split sep s = [s].
Proof.
  induction s as [|c s IH]; simpl; [reflexivity|].
  intros E. apply orb_false_elim in E as (Ec & Es).
  rewrite Ec, (IH Es). reflexivity.
Qed.

Lemma split_at_sep (sep : ascii) (a b : str) :
  PyStr.has_char sep a = false ->
  PyStr.split sep (a ++ sep :: b) = a :: PyStr.split sep b.
Proof.
  induction a as [|c a IH]; simpl.
  - intros _. rewrite bool_decide_eq_true_2 by reflexivity. reflexivity.
  - intros E. apply orb_false_elim in E as (Ec & Ea).
    rewrite Ec, (IH Ea). reflexivity.
Qed.

Lemma split_join (sep : ascii) (fields : list str) :
  fields <> [] ->
  Forall (fun f => PyStr.has_char sep f = false) fields ->
  PyStr.split sep (PyStr.join [sep] fields) = fields.
Proof.
  induction fields as [|f fields IH]; [congruence|]. intros _ F.
  apply Forall_cons_1 in F as (Hf & F).
  destruct fields as [|g fields].
  - simpl. apply split_without_sep, Hf.
  - change (PyStr.join [sep] (f :: g :: fields))
      with (f ++ sep :: PyStr.join [sep] (g :: fields)).
    rewrite split_at_sep by assumption. f_equal. apply IH; [discriminate | exact F].
Qed.

Lemma lstrip_space (s : str) : PyStr.lstrip (" "%char :: s) = PyStr.lstrip s.
Proof. reflexivity. Qed.

Lemma lstrip_app (s t : str) :
  PyStr.lstrip s <> [] -> PyStr.lstrip (s ++ t) = PyStr.lstrip s ++ t.
Proof.
  induction s as [|c s IH]; simpl; [congruence|].
  destruct (PyStr.is_space c); [exact IH | reflexivity].
Qed.

Lemma lstrip_all_space (s : str) :
  PyStr.lstrip s = [] -> PyStr.lstrip (s ++ " ") = [].
Proof.
  induction s as [|c s IH]; simpl; [reflexivity|].
  destruct (PyStr.is_space c); [exact IH | discriminate].
Qed.

Lemma rstrip_space (s : str) : PyStr.rstrip (s ++ " ") = PyStr.rstrip s.
Proof. unfold PyStr.rstrip. rewrite rev_app_distr. reflexivity. Qed.

(** A blank on either side of a text is stripped with the rest. *)
Lemma strip_space_l (s : str) : PyStr.strip (" "%char :: s) = PyStr.strip s.
Proof. reflexivity. Qed.

Lemma strip_space_r (s : str) : PyStr.strip (s ++ " ") = PyStr.strip s.
Proof.
  unfold PyStr.strip. destruct (PyStr.lstrip s) as [|c r] eqn:E.
  - rewrite (lstrip_all_space s E). reflexivity.
  - rewrite lstrip_app by (rewrite E; discriminate). rewrite E.
    apply (rstrip_space (c :: r)).
Qed.

Lemma startswith_other_char (old s : str) (c : ascii) :
  PyStr.has_char c s = false ->
  forall t, PyStr.startswith (c :: old) (s ++ t) = PyStr.startswith (c :: old) t
            \/ PyStr.startswith (c :: old) (s ++ t) = false.
Proof.
  intros E t. destruct s as [|x s]; [left; reflexivity|]. right. simpl in *.
  apply orb_false_elim in E as (Ex & _). apply bool_decide_eq_false in Ex.
  rewrite bool_decide_eq_false_2 by congruence. reflexivity.
Qed.

(** A text without the first character of [old] holds no occurrence of
    [old], and none begins in it when it is followed by [t]. *)
Lemma contains_past_other_chars (old s t : str) (c : ascii) :
  PyStr.has_char c s = false ->
  PyStr.contains (c :: old) (s ++ t) = PyStr.contains (c :: old) t.
Proof.
  induction s as [|x s IH]; intros E; [reflexivity|].
  simpl in E. apply orb_false_elim in E as (Ex & Es).
  apply bool_decide_eq_false in Ex.
  change ((x :: s) ++ t) with (x :: (s ++ t)).
  change (PyStr.contains (c :: old) (x :: (s ++ t)))
    with (PyStr.startswith (c :: old) (x :: (s ++ t)) || PyStr.contains (c :: old) (s ++ t)).
  simpl PyStr.startswith. rewrite bool_decide_eq_false_2 by congruence.
  simpl. apply IH, Es.
Qed.

Lemma contains_nil_r (old : str) (c : ascii) : PyStr.contains (c :: old) [] = false.
Proof. reflexivity. Qed.

Lemma replace_from_skip (old new pre rest : str) :
  PyStr.replace_from (length pre) old new (pre ++ rest)
  = PyStr.replace_from 0 old new rest.
Proof. induction pre as [|c pre IH]; simpl; [reflexivity | exact IH]. Qed.

Lemma replace_absent (old new s : str) :
  PyStr.contains old s = false -> PyStr.replace old new s = s.
Proof.
  unfold PyStr.replace. induction s as [|c s IH]; intros E; [reflexivity|].
  simpl in E. apply orb_false_elim in E as (E1 & E2).
  destruct old as [|o old]; [discriminate|].
  change (PyStr.replace_from 0 (o :: old) new (c :: s))
    with (if PyStr.startswith (o :: old) (c :: s)
          then new ++ PyStr.replace_from (length (o :: old) - 1) (o :: old) new s
          else c :: PyStr.replace_from 0 (o :: old) new s).
  rewrite E1. f_equal. apply IH, E2.
Qed.

Lemma replace_prefix (old new rest : str) :
  old <> [] ->
  PyStr.replace old new (old ++ rest) = new ++ PyStr.replace old new rest.
Proof.
  destruct old as [|o old]; [congruence|]. intros _.
  unfold PyStr.replace.
  change (PyStr.replace_from 0 (o :: old) new ((o :: old) ++ rest))
    with (if PyStr.startswith (o :: old) ((o :: old) ++ rest)
          then new ++ PyStr.replace_from (length (o :: old) - 1) (o :: old) new (old ++ rest)
          else o :: PyStr.replace_from 0 (o :: old) new (old ++ rest)).
  rewrite startswith_app.
  replace (length (o :: old) - 1) with (length old) by (simpl; lia).
  rewrite replace_from_skip. reflexivity.
Qed.

(** ** Reading back the lines of the server file *)

Lemma plain_inv (s : str) :
  plain s = true ->
  PyStr.has_char "#" s = false /\ PyStr.has_char NL s = false /\ PyStr.strip s = s.
Proof.
  unfold plain. intros E. apply andb_prop in E as (E & E3).
  apply andb_prop in E as (E1 & E2).
  apply negb_true_iff in E1, E2. apply eqb_true in E3. auto.
Qed.

Lemma writable_inv `{World} (i : PushItem) :
  writable i = true ->
  settled i = true
  /\ PurePath.of_str (PurePath.to_str (path i)) = path i
  /\ plain (PurePath.to_str (path i)) = true
  /\ plain (url i) = true
  /\ PyStr.startswith "Deleted: " (url i) = false
  /\ exists c, category i = Some c /\ c <> BLOCKED
               /\ (c = DELETED \/ item_exists i = true).
Proof.
  unfold writable. intros E.
  apply andb_prop in E as (E & E6). apply andb_prop in E as (E & E5).
  apply andb_prop in E as (E & E4). apply andb_prop in E as (E & E3).
  apply andb_prop in E as (E1 & E2).
  apply path_eqb_true in E2. apply negb_true_iff in E5.
  repeat (split; [assumption|]).
  destruct (category i) as [c|]; [|discriminate]. exists c.
  split; [reflexivity|].
  destruct c; try discriminate; (split; [discriminate|]); auto.
Qed.

Lemma item_text_no_leading_hash (pre a t : str) :
  PyStr.has_char "#" a = false ->
  PyStr.startswith ("#"%char :: pre) (a ++ " "%char :: t) = false.
Proof.
  intros E. destruct a as [|x a]; [reflexivity|]. simpl in *.
  apply orb_false_elim in E as (Ex & _). apply bool_decide_eq_false in Ex.
  rewrite bool_decide_eq_false_2 by congruence. reflexivity.
Qed.

Lemma item_text_split (a u : str) :
  PyStr.has_char "#" a = false -> PyStr.has_char "#" u = false ->
  PyStr.split "#" (a ++ " # " ++ u) = [a ++ " "; " "%char :: u].
Proof.
  intros Ea Eu.
  change (a ++ " # " ++ u) with (a ++ [" "%char] ++ "#"%char :: " "%char :: u).
  rewrite app_assoc. rewrite split_at_sep.
  - rewrite split_without_sep; [reflexivity|]. simpl. exact Eu.
  - rewrite has_char_app, Ea. reflexivity.
Qed.

Lemma item_text_has_hash (a u : str) : PyStr.has_char "#" (a ++ " # " ++ u) = true.
Proof.
  rewrite has_char_app. apply orb_true_iff. right. reflexivity.
Qed.

Lemma item_text_no_marker (a u : str) :
  PyStr.has_char "#" a = false -> PyStr.has_char "#" u = false ->
  PyStr.startswith "Deleted: " u = false ->
  PyStr.contains "# Deleted: " (a ++ " # " ++ u) = false.
Proof.
  intros Ea Eu Ed.
  change (list_ascii_of_string "# Deleted: ")
    with ("#"%char :: list_ascii_of_string " Deleted: ").
  change (a ++ " # " ++ u) with (a ++ [" "%char] ++ "#"%char :: " "%char :: u).
  rewrite app_assoc.
  rewrite contains_past_other_chars by (rewrite has_char_app, Ea; reflexivity).
  change (PyStr.contains ("#"%char :: list_ascii_of_string " Deleted: ")
                         ("#"%char :: " "%char :: u))
    with (PyStr.startswith ("#"%char :: list_ascii_of_string " Deleted: ")
                           ("#"%char :: " "%char :: u)
          || PyStr.contains ("#"%char :: list_ascii_of_string " Deleted: ")
                            (" "%char :: u)).
  apply orb_false_intro.
  - simpl PyStr.startswith at 1. exact Ed.
  - rewrite <- (app_nil_r (" "%char :: u)).
    rewrite contains_past_other_chars; [reflexivity|]. simpl. exact Eu.
Qed.

Lemma path_text_no_marker (a : str) :
  PyStr.has_char "#" a = false -> PyStr.contains "# Deleted: " a = false.
Proof.
  intros Ea. rewrite <- (app_nil_r a).
  change (list_ascii_of_string "# Deleted: ")
    with ("#"%char :: list_ascii_of_string " Deleted: ").
  rewrite contains_past_other_chars by assumption. reflexivity.
Qed.

Lemma path_text_not_empty (p : Path) :
  PurePath.of_str (PurePath.to_str p) = p -> PurePath.to_str p <> [].
Proof.
  intros E Hn. rewrite Hn in E. vm_compute in E. subst p. discriminate.
Qed.

(** A heading line sets the category. *)
Lemma heading_line `{World} (status : option PushStatus) (push_list : option PushList)
    (st : Decoder) (c : PushCategory) :
  from_server_file_line status push_list st (("# " : str) ++ Category.value c)
  = Ok (mkDecoder (Some c) false (results st)).
Proof. destruct c; reflexivity. Qed.

(** The two ways in which a line gives an item. *)
Lemma line_with_hash `{World} (status : option PushStatus) (push_list : option PushList)
    (st : Decoder) (line line' a u : str) :
  line <> [] ->
  line' = (if PyStr.startswith "# Deleted" line
           then PyStr.replace "# Deleted: " "" line else line) ->
  PyStr.startswith "#" line' = false ->
  PyStr.has_char "#" line' = true ->
  PyStr.split "#" line' = [a; u] ->
  from_server_file_line status push_list st line
  = Ok (mkDecoder (cur_category st) false
          (add (results st)
               (mkPushItem (PurePath.of_str (PyStr.strip a))
                  (if (if PyStr.startswith "# Deleted" line then true else deleted st)
                   then Some DELETED else cur_category st)
                  status (PyStr.strip u) push_list None None))).
Proof.
  intros Hne -> E1 E2 E3. destruct line as [|x line]; [congruence|].
  unfold from_server_file_line. rewrite E1, E2, E3. reflexivity.
Qed.

Lemma line_without_hash `{World} (status : option PushStatus) (push_list : option PushList)
    (st : Decoder) (line line' : str) :
  line <> [] ->
  line' = (if PyStr.startswith "# Deleted" line
           then PyStr.replace "# Deleted: " "" line else line) ->
  PyStr.startswith "#" line' = false ->
  PyStr.has_char "#" line' = false ->
  from_server_file_line status push_list st line
  = Ok (mkDecoder (cur_category st) false
          (add (results st)
               (mkPushItem (PurePath.of_str (PyStr.strip line'))
                  (if (if PyStr.startswith "# Deleted" line then true else deleted st)
                   then Some DELETED else cur_category st)
                  status "" push_list None None))).
Proof.
  intros Hne -> E1 E2. destruct line as [|x line]; [congruence|].
  unfold from_server_file_line. rewrite E1, E2. reflexivity.
Qed.

Lemma no_hash_no_leading_hash (a : str) :
  PyStr.has_char "#" a = false -> PyStr.startswith "#" a = false.
Proof.
  intros Ea. destruct a as [|x a]; [reflexivity|]. simpl in *.
  apply orb_false_elim in Ea as (Ex & _). apply bool_decide_eq_false in Ex.
  rewrite bool_decide_eq_false_2 by congruence. reflexivity.
Qed.

(** A line [path # url] gives an item of the current category. *)
Lemma present_line `{World} (status : option PushStatus) (push_list : option PushList)
    (st : Decoder) (a u : str) :
  PyStr.has_char "#" a = false -> PyStr.has_char "#" u = false ->
  deleted st = false ->
  from_server_file_line status push_list st (a ++ " # " ++ u)
  = Ok (mkDecoder (cur_category st) false
          (add (results st)
               (mkPushItem (PurePath.of_str (PyStr.strip a)) (cur_category st)
                           status (PyStr.strip u) push_list None None))).
Proof.
  intros Ea Eu Ed.
  assert (E0 : PyStr.startswith "# Deleted" (a ++ " # " ++ u) = false)
    by (apply (item_text_no_leading_hash _ a), Ea).
  rewrite (line_with_hash status push_list st _ (a ++ " # " ++ u) (a ++ " ") (" "%char :: u)).
  - rewrite E0, Ed, strip_space_r, strip_space_l. reflexivity.
  - destruct a; discriminate.
  - rewrite E0. reflexivity.
  - apply (item_text_no_leading_hash _ a), Ea.
  - apply item_text_has_hash.
  - apply item_text_split; assumption.
Qed.

(** A line [# Deleted: path # url] gives an item of category [DELETED]. *)
Lemma deleted_line_with_url `{World} (status : option PushStatus)
    (push_list : option PushList) (st : Decoder) (a u : str) :
  PyStr.has_char "#" a = false -> PyStr.has_char "#" u = false ->
  PyStr.startswith "Deleted: " u = false ->
  from_server_file_line status push_list st ("# Deleted: " ++ a ++ " # " ++ u)
  = Ok (mkDecoder (cur_category st) false
          (add (results st)
               (mkPushItem (PurePath.of_str (PyStr.strip a)) (Some DELETED)
                           status (PyStr.strip u) push_list None None))).
Proof.
  intros Ea Eu Eurl.
  assert (Er : PyStr.replace "# Deleted: " "" ("# Deleted: " ++ a ++ " # " ++ u)
               = a ++ " # " ++ u).
  { rewrite replace_prefix by discriminate.
    apply replace_absent, item_text_no_marker; assumption. }
  assert (E0 : PyStr.startswith "# Deleted" ("# Deleted: " ++ a ++ " # " ++ u) = true)
    by apply (startswith_app "# Deleted" (": " ++ a ++ " # " ++ u)).
  rewrite (line_with_hash status push_list st _ (a ++ " # " ++ u) (a ++ " ") (" "%char :: u)).
  - rewrite E0, strip_space_r, strip_space_l. reflexivity.
  - discriminate.
  - rewrite E0, Er. reflexivity.
  - apply (item_text_no_leading_hash _ a), Ea.
  - apply item_text_has_hash.
  - apply item_text_split; assumption.
Qed.

(** A line [# Deleted: path] gives an item of category [DELETED] with an
    empty url. *)
Lemma deleted_line_without_url `{World} (status : option PushStatus)
    (push_list : option PushList) (st : Decoder) (a : str) :
  PyStr.has_char "#" a = false ->
  from_server_file_line status push_list st ("# Deleted: " ++ a)
  = Ok (mkDecoder (cur_category st) false
          (add (results st)
               (mkPushItem (PurePath.of_str (PyStr.strip a)) (Some DELETED)
                           status "" push_list None None))).
Proof.
  intros Ea.
  assert (Er : PyStr.replace "# Deleted: " "" ("# Deleted: " ++ a) = a).
  { rewrite replace_prefix by discriminate.
    apply replace_absent, path_text_no_marker, Ea. }
  assert (E0 : PyStr.startswith "# Deleted" ("# Deleted: " ++ a) = true)
    by apply (startswith_app "# Deleted" (": " ++ a)).
  rewrite (line_without_hash status push_list st _ a).
  - rewrite E0. reflexivity.
  - discriminate.
  - rewrite E0, Er. reflexivity.
  - apply no_hash_no_leading_hash, Ea.
  - exact Ea.
Qed.

Lemma settled_reread `{World} (status : option PushStatus) (push_list : option PushList)
    (i : PushItem) : settled (reread status push_list i) = settled i.
Proof. reflexivity. Qed.

(** The line written for a writable item is read back as that item. *)
Lemma server_line_read_back `{World} (status : option PushStatus)
    (push_list : option PushList) (st : Decoder) (c : PushCategory) (i : PushItem) :
  writable i = true -> category i = Some c ->
  cur_category st = Some c -> deleted st = false ->
  no_bare_root (results st) -> path i ∉ path <$> results st ->
  from_server_file_line status push_list st (server_line i)
  = Ok (mkDecoder (Some c) false (results st ++ [reread status push_list i])).
Proof.
  intros Hw Hc Hcur Hdel Hroot Hfresh.
  destruct (writable_inv i Hw) as (Hs & Hp & Hpt & Hu & Hd & c' & Hc' & Hnb & Hex).
  rewrite Hc in Hc'. injection Hc' as <-.
  destruct (plain_inv _ Hpt) as (Hp1 & Hp2 & Hp3).
  destruct (plain_inv _ Hu) as (Hu1 & Hu2 & Hu3).
  assert (Hadd : forall cat u, u = url i -> cat = category i ->
            add (results st)
                (mkPushItem (PurePath.of_str (PyStr.strip (PurePath.to_str (path i))))
                            cat status u push_list None None)
            = results st ++ [reread status push_list i]).
  { intros cat u -> ->. rewrite Hp3, Hp.
    apply (add_settled (results st) (reread status push_list i));
      [exact Hroot | exact Hs | exact Hfresh]. }
  unfold server_line. destruct (item_exists i) eqn:Ee.
  - rewrite present_line by assumption. rewrite Hcur. f_equal. f_equal.
    apply Hadd; [exact Hu3 | congruence].
  - destruct Hex as [-> | Hex]; [|congruence].
    destruct (url i) as [|x u] eqn:Eu.
    + simpl negb. cbv iota. rewrite deleted_line_without_url by assumption.
      rewrite Hcur. f_equal. f_equal. apply Hadd; [reflexivity | congruence].
    + rewrite bool_decide_eq_false_2 by discriminate. simpl negb. cbv iota.
      rewrite deleted_line_with_url by assumption.
      rewrite Hcur. f_equal. f_equal. apply Hadd; [exact Hu3 | congruence].
Qed.

Lemma for_each_app {A S} (body : S -> A -> Outcome S) (xs ys : list A) (s : S) :
  for_each body (xs ++ ys) s = (for_each body xs s ≫= for_each body ys).
Proof.
  revert s. induction xs as [|x xs IH]; intros s; simpl; [reflexivity|].
  unfold mbind, Outcome_bind at 1 3. destruct (body s x); [apply IH | reflexivity].
Qed.

Lemma for_each_cons {A S} (body : S -> A -> Outcome S) (x : A) (xs : list A) (s : S) :
  for_each body (x :: xs) s = (body s x ≫= for_each body xs).
Proof. reflexivity. Qed.

Lemma for_each_nil {A S} (body : S -> A -> Outcome S) (s : S) :
  for_each body [] s = Ok s.
Proof. reflexivity. Qed.

(** An empty line changes nothing. *)
Lemma blank_line `{World} (status : option PushStatus) (push_list : option PushList)
    (st : Decoder) : from_server_file_line status push_list st [] = Ok st.
Proof. reflexivity. Qed.

(** The item lines of one group. *)
Lemma item_lines_read_back `{World} (status : option PushStatus)
    (push_list : option PushList) (c : PushCategory) (g : list PushItem) :
  forall r : PushItems,
  Forall (fun i => writable i = true) g ->
  Forall (fun i => category i = Some c) g ->
  no_bare_root r -> NoDup (path <$> r ++ g) ->
  for_each (from_server_file_line status push_list) (server_line <$> g)
           (mkDecoder (Some c) false r)
  = Ok (mkDecoder (Some c) false (r ++ (reread status push_list <$> g))).
Proof.
  induction g as [|i g IH]; intros r Hw Hc Hroot Hnd.
  - simpl. rewrite app_nil_r. reflexivity.
  - apply Forall_cons_1 in Hw as (Hwi & Hw). apply Forall_cons_1 in Hc as (Hci & Hc).
    rewrite fmap_app in Hnd.
    assert (Hfresh : path i ∉ path <$> r).
    { apply NoDup_app in Hnd as (_ & Hd & _). intros Hin. apply (Hd _ Hin). left. }
    rewrite fmap_cons. simpl for_each.
    rewrite (server_line_read_back status push_list _ c i);
      [| exact Hwi | exact Hci | reflexivity | reflexivity | exact Hroot | exact Hfresh].
    unfold mbind, Outcome_bind. simpl results. rewrite IH.
    + rewrite <- app_assoc. reflexivity.
    + exact Hw.
    + exact Hc.
    + apply Forall_app; split; [exact Hroot|].
      apply (settled_not_bare [reread status push_list i]).
      constructor; [|constructor]. rewrite settled_reread.
      apply (writable_inv i Hwi).
    + rewrite fmap_app, fmap_app, <- app_assoc. exact Hnd.
Qed.

(** The lines of the groups of a list of categories. *)
Lemma groups_read_back `{World} (status : option PushStatus)
    (push_list : option PushList) (G : PushCategory -> list PushItem)
    (cs : list PushCategory) :
  (forall c, Forall (fun i => writable i = true) (G c)) ->
  (forall c, Forall (fun i => category i = Some c) (G c)) ->
  forall (cat : option PushCategory) (r : PushItems),
  no_bare_root r -> NoDup (path <$> r ++ flat_map G cs) ->
  exists cat',
    for_each (from_server_file_line status push_list)
             (flat_map (fun c => group_lines c (G c)) cs)
             (mkDecoder cat false r)
    = Ok (mkDecoder cat' false (r ++ (reread status push_list <$> flat_map G cs))).
Proof.
  intros Hw Hc. induction cs as [|c cs IH]; intros cat r Hroot Hnd.
  - exists cat. simpl. rewrite app_nil_r. reflexivity.
  - simpl flat_map. simpl flat_map in Hnd. rewrite app_assoc in Hnd.
    assert (Hroot' : no_bare_root (r ++ (reread status push_list <$> G c))).
    { apply Forall_app; split; [exact Hroot|].
      apply settled_not_bare. apply Forall_fmap.
      eapply Forall_impl; [apply (Hw c)|]. intros i Hi. simpl.
      rewrite settled_reread. apply (writable_inv i Hi). }
    assert (Hnd' : NoDup (path <$> (r ++ (reread status push_list <$> G c))
                                   ++ flat_map G cs)).
    { rewrite fmap_app, (fmap_app _ r), <- list_fmap_compose.
      rewrite fmap_app, (fmap_app _ r) in Hnd. exact Hnd. }
    rewrite for_each_app.
    pose proof (Hw c) as Hwc. pose proof (Hc c) as Hcc.
    destruct (G c) as [|i g] eqn:Eg.
    + change (group_lines c []) with ([] : list str).
      rewrite app_nil_r in Hnd. apply (IH cat r Hroot Hnd).
    + change (group_lines c (i :: g))
        with ((("# " : str) ++ Category.value c) :: ((server_line <$> i :: g) ++ [[]])).
      rewrite for_each_cons, heading_line.
      unfold mbind at 2, Outcome_bind at 2. simpl results.
      rewrite for_each_app, item_lines_read_back.
      * unfold mbind at 2, Outcome_bind at 2.
        rewrite for_each_cons, blank_line.
        unfold mbind, Outcome_bind. rewrite for_each_nil.
        destruct (IH (Some c) _ Hroot' Hnd') as (cat' & E).
        exists cat'. rewrite E. rewrite fmap_app, app_assoc. reflexivity.
      * exact Hwc.
      * exact Hcc.
      * exact Hroot.
      * rewrite fmap_app in Hnd. apply NoDup_app in Hnd as (Hnd & _). exact Hnd.
Qed.

(** ** The order of the server file *)

Lemma set_add_fresh (x : PushItem) (s : list PushItem) :
  path x ∉ path <$> s -> set_add x s = s ++ [x].
Proof.
  intros Hx. unfold set_add. destruct (existsb (item_eqb x) s) eqn:E; [|reflexivity].
  exfalso. apply existsb_exists in E as (j & Hj & Ej). apply path_eqb_true in Ej.
  apply Hx. rewrite Ej. apply list_elem_of_fmap_2, list_elem_of_In, Hj.
Qed.

Lemma fold_set_add_id (l acc : list PushItem) :
  NoDup (path <$> acc ++ l) ->
  fold_left (fun s i => set_add i s) l acc = acc ++ l.
Proof.
  revert acc. induction l as [|x l IH]; intros acc N; simpl.
  - rewrite app_nil_r. reflexivity.
  - rewrite set_add_fresh.
    + rewrite IH; rewrite <- app_assoc; [reflexivity | exact N].
    + rewrite fmap_app in N. apply NoDup_app in N as (_ & Hd & _).
      intros Hin. apply (Hd _ Hin). left.
Qed.

Lemma filter_paths_sublist (f : PushItem -> bool) (r : PushItems) :
  sublist (path <$> List.filter f r) (path <$> r).
Proof.
  induction r as [|x r IH]; simpl; [constructor|].
  destruct (f x); [apply sublist_skip | apply sublist_cons]; exact IH.
Qed.

Lemma bin_of_distinct (c : PushCategory) (r : PushItems) :
  NoDup (path <$> r) ->
  bin_of c r = List.filter (fun i => bool_decide (category i = Some c)) r.
Proof.
  intros N. unfold bin_of. apply (fold_set_add_id _ []). simpl.
  eapply sublist_NoDup; [exact N | apply filter_paths_sublist].
Qed.

Lemma flat_map_perm {A B} (f g : A -> list B) (l : list A) :
  (forall a, f a ≡ₚ g a) -> flat_map f l ≡ₚ flat_map g l.
Proof.
  intros E. induction l as [|a l IH]; simpl; [reflexivity|].
  rewrite (E a), IH. reflexivity.
Qed.

Lemma members_complete (c : PushCategory) : c ∈ Category.members.
Proof. destruct c; unfold Category.members; set_solver. Qed.

Lemma members_NoDup : NoDup Category.members.
Proof. apply (bool_decide_unpack _). vm_compute. exact I. Qed.

Lemma other_groups_unchanged {B} (x : B) (cx : PushCategory)
    (F : PushCategory -> list B) (cs : list PushCategory) :
  cx ∉ cs ->
  flat_map (fun c => if bool_decide (cx = c) then x :: F c else F c) cs = flat_map F cs.
Proof.
  induction cs as [|c cs IH]; intros Hx; [reflexivity|]. simpl.
  apply not_elem_of_cons in Hx as (Hne & Hx).
  rewrite bool_decide_eq_false_2 by assumption. rewrite (IH Hx). reflexivity.
Qed.

(** An item added to the group of its category is one more item. *)
Lemma one_group_grows {B} (x : B) (cx : PushCategory)
    (F : PushCategory -> list B) (cs : list PushCategory) :
  NoDup cs -> cx ∈ cs ->
  flat_map (fun c => if bool_decide (cx = c) then x :: F c else F c) cs
  ≡ₚ x :: flat_map F cs.
Proof.
  induction cs as [|c cs IH]; intros N Hx; [apply elem_of_nil in Hx; contradiction|].
  apply NoDup_cons in N as (Hc & N). simpl.
  destruct (decide (cx = c)) as [->|Hne].
  - rewrite bool_decide_eq_true_2 by reflexivity.
    rewrite other_groups_unchanged by assumption. reflexivity.
  - rewrite bool_decide_eq_false_2 by assumption.
    apply elem_of_cons in Hx as [?|Hx]; [contradiction|].
    rewrite (IH N Hx). symmetry. apply Permutation_middle.
Qed.

(** Cutting a registry by category loses and repeats no member. *)
Lemma by_category_perm (r : PushItems) :
  Forall (fun i => is_Some (category i)) r ->
  flat_map (fun c => List.filter (fun i => bool_decide (category i = Some c)) r)
           Category.members
  ≡ₚ r.
Proof.
  induction r as [|x r IH]; intros Hc.
  - unfold Category.members. reflexivity.
  - apply Forall_cons_1 in Hc as ([cx Ex] & Hc). specialize (IH Hc).
    transitivity
      (x :: flat_map
              (fun c => List.filter (fun i => bool_decide (category i = Some c)) r)
              Category.members);
      [|constructor; exact IH].
    rewrite <- (one_group_grows x cx _ Category.members members_NoDup (members_complete cx)).
    apply flat_map_perm. intros c. simpl. rewrite Ex.
    destruct (decide (cx = c)) as [->|Hne].
    + rewrite !bool_decide_eq_true_2 by reflexivity. reflexivity.
    + rewrite !bool_decide_eq_false_2 by congruence. reflexivity.
Qed.

Lemma writable_has_category `{World} (r : PushItems) :
  Forall (fun i => writable i = true) r ->
  Forall (fun i => is_Some (category i)) r
  /\ Forall (fun i => category i <> Some BLOCKED) r.
Proof.
  intros Hw. split; (eapply Forall_impl; [exact Hw|]); intros i Hi; simpl in *;
    destruct (writable_inv i Hi) as (_ & _ & _ & _ & _ & c & Ec & Hb & _); rewrite Ec.
  - eexists; reflexivity.
  - congruence.
Qed.

Lemma listed_distinct (c : PushCategory) (r : PushItems) :
  NoDup (path <$> r) ->
  Forall (fun i => category i <> Some BLOCKED) r ->
  listed c r ≡ₚ List.filter (fun i => bool_decide (category i = Some c)) r.
Proof.
  intros N Hb. unfold listed. destruct (decide (c = BLOCKED)) as [->|Hc].
  - rewrite bool_decide_eq_true_2 by reflexivity.
    induction r as [|x r IH]; [reflexivity|].
    apply Forall_cons_1 in Hb as (Hx & Hb). simpl in N. apply NoDup_cons in N as (_ & N).
    simpl. rewrite bool_decide_eq_false_2 by assumption. apply IH; assumption.
  - rewrite bool_decide_eq_false_2 by assumption.
    rewrite sorted_by_path_perm, bin_of_distinct by assumption. reflexivity.
Qed.

(** The file lists the members of a registry with distinct paths and no
    [BLOCKED] member, each once. *)
Lemma file_order_perm (r : PushItems) :
  NoDup (path <$> r) ->
  Forall (fun i => is_Some (category i)) r ->
  Forall (fun i => category i <> Some BLOCKED) r ->
  file_order r ≡ₚ r.
Proof.
  intros N Hc Hb. unfold file_order.
  rewrite (flat_map_perm _
             (fun c => List.filter (fun i => bool_decide (category i = Some c)) r)).
  - apply by_category_perm, Hc.
  - intros c. apply listed_distinct; assumption.
Qed.

Lemma heading_no_line_feed (c : PushCategory) :
  PyStr.has_char NL (("# " : str) ++ Category.value c) = false.
Proof. destruct c; reflexivity. Qed.

Lemma server_line_no_line_feed `{World} (i : PushItem) :
  writable i = true -> PyStr.has_char NL (server_line i) = false.
Proof.
  intros Hw. destruct (writable_inv i Hw) as (_ & _ & Hp & Hu & _).
  destruct (plain_inv _ Hp) as (_ & Hp2 & _). destruct (plain_inv _ Hu) as (_ & Hu2 & _).
  unfold server_line.
  destruct (item_exists i); [|destruct (negb _)];
    rewrite ?has_char_app, Hp2, ?Hu2; reflexivity.
Qed.

Lemma group_lines_no_line_feed `{World} (c : PushCategory) (g : list PushItem) :
  Forall (fun i => writable i = true) g ->
  Forall (fun l => PyStr.has_char NL l = false) (group_lines c g).
Proof.
  intros Hw. destruct g as [|i g]; [constructor|].
  unfold group_lines. apply Forall_app. split.
  - constructor; [apply heading_no_line_feed | constructor].
  - apply Forall_app. split; [|repeat constructor].
    apply Forall_fmap. eapply Forall_impl; [exact Hw|].
    intros j Hj. apply server_line_no_line_feed, Hj.
Qed.

Lemma flat_map_Forall {A B} (P : B -> Prop) (f : A -> list B) (l : list A) :
  (forall a, Forall P (f a)) -> Forall P (flat_map f l).
Proof.
  intros Hf. induction l as [|a l IH]; simpl; [constructor|].
  apply Forall_app. split; [apply Hf | exact IH].
Qed.

(** Reading the lines of a text cut at its line feeds. *)
Lemma read_joined_lines `{World} (status : option PushStatus)
    (push_list : option PushList) (lines : list str) (st : Decoder) :
  Forall (fun l => PyStr.has_char NL l = false) lines ->
  for_each (from_server_file_line status push_list)
           (PyStr.split NL (PyStr.join [NL] lines)) st
  = for_each (from_server_file_line status push_list) lines st.
Proof.
  intros Hl. destruct lines as [|l lines]; [reflexivity|].
  rewrite split_join; [reflexivity | discriminate | exact Hl].
Qed.

Lemma listed_writable `{World} (c : PushCategory) (r : PushItems) :
  Forall (fun i => writable i = true) r ->
  Forall (fun i => writable i = true) (listed c r).
Proof.
  intros Hw. rewrite Forall_forall in *. intros i Hi.
  apply Hw. apply (listed_spec c r), Hi.
Qed.

Lemma listed_category (c : PushCategory) (r : PushItems) :
  Forall (fun i => category i = Some c) (listed c r).
Proof. rewrite Forall_forall. intros i Hi. apply (listed_spec c r), Hi. Qed.

(** What [from_server_file] returns for the file of a writable registry. *)
Lemma read_back `{World} (status : option PushStatus) (push_list : option PushList)
    (r : PushItems) (text : str) :
  NoDup (path <$> r) ->
  Forall (fun i => writable i = true) r ->
  to_server_file r = Ok text ->
  from_server_file text status push_list
  = Ok (reread status push_list <$> file_order r).
Proof.
  intros N Hw Et. destruct (writable_has_category r Hw) as (Hc & Hb).
  assert (Etext : text = PyStr.join [NL]
            (flat_map (fun c => group_lines c (listed c r)) Category.members)).
  { rewrite to_server_file_groups in Et by assumption. congruence. }
  subst text. unfold from_server_file. rewrite read_joined_lines.
  - destruct (groups_read_back status push_list (fun c => listed c r) Category.members
                (fun c => listed_writable c r Hw) (fun c => listed_category c r)
                (Some OTHER) []) as (cat' & E).
    + constructor.
    + rewrite app_nil_l. fold (file_order r).
      rewrite (file_order_perm r) by assumption. exact N.
    + cbv beta in E. rewrite E. reflexivity.
  - apply flat_map_Forall. intros c. apply group_lines_no_line_feed, listed_writable, Hw.
Qed.

(** ** Writing the file a second time *)

Lemma path_fmap_reread (status : option PushStatus) (push_list : option PushList)
    (l : list PushItem) : path <$> (reread status push_list <$> l) = path <$> l.
Proof. rewrite <- list_fmap_compose. reflexivity. Qed.

Lemma filter_reread (status : option PushStatus) (push_list : option PushList)
    (c : PushCategory) (l : list PushItem) :
  List.filter (fun i => bool_decide (category i = Some c)) (reread status push_list <$> l)
  = reread status push_list <$> List.filter (fun i => bool_decide (category i = Some c)) l.
Proof.
  induction l as [|x l IH]; [reflexivity|]. rewrite fmap_cons. simpl List.filter.
  destruct (bool_decide (category x = Some c)); [rewrite fmap_cons|]; rewrite IH; reflexivity.
Qed.

Lemma filter_flat_map {A B} (f : B -> bool) (G : A -> list B) (cs : list A) :
  List.filter f (flat_map G cs) = flat_map (fun c => List.filter f (G c)) cs.
Proof.
  induction cs as [|c cs IH]; simpl; [reflexivity|].
  rewrite List.filter_app, IH. reflexivity.
Qed.

Lemma filter_all {A} (f : A -> bool) (l : list A) :
  Forall (fun x => f x = true) l -> List.filter f l = l.
Proof.
  induction l as [|x l IH]; intros F; [reflexivity|].
  apply Forall_cons_1 in F as (Hx & F). simpl. rewrite Hx, (IH F). reflexivity.
Qed.

Lemma filter_none {A} (f : A -> bool) (l : list A) :
  Forall (fun x => f x = false) l -> List.filter f l = [].
Proof.
  induction l as [|x l IH]; intros F; [reflexivity|].
  apply Forall_cons_1 in F as (Hx & F). simpl. rewrite Hx. apply IH, F.
Qed.

Lemma one_group_selected {B} (c : PushCategory) (G : PushCategory -> list B)
    (cs : list PushCategory) :
  NoDup cs -> c ∈ cs ->
  flat_map (fun c' => if bool_decide (c = c') then G c' else []) cs = G c.
Proof.
  induction cs as [|c' cs IH]; intros N Hc; [apply elem_of_nil in Hc; contradiction|].
  apply NoDup_cons in N as (Hc' & N). simpl.
  destruct (decide (c = c')) as [<-|Hne].
  - rewrite bool_decide_eq_true_2 by reflexivity.
    rewrite <- (app_nil_r (G c)) at 2. f_equal.
    clear IH N Hc. induction cs as [|d cs IH]; [reflexivity|].
    apply not_elem_of_cons in Hc' as (Hd & Hcs). simpl.
    rewrite bool_decide_eq_false_2 by assumption. apply IH, Hcs.
  - rewrite bool_decide_eq_false_2 by assumption.
    apply elem_of_cons in Hc as [?|Hc]; [contradiction|]. apply IH; assumption.
Qed.

(** The members of one category, in the order of the file. *)
Lemma filter_file_order (c : PushCategory) (r : PushItems) :
  List.filter (fun i => bool_decide (category i = Some c)) (file_order r) = listed c r.
Proof.
  unfold file_order. rewrite filter_flat_map.
  rewrite <- (one_group_selected c (fun c' => listed c' r) Category.members
                members_NoDup (members_complete c)).
  apply flat_map_ext. intros c'. destruct (decide (c = c')) as [<-|Hne].
  - rewrite bool_decide_eq_true_2 by reflexivity. apply filter_all.
    eapply Forall_impl; [apply listed_category|]. intros i Hi. simpl in Hi.
    apply bool_decide_eq_true_2, Hi.
  - rewrite bool_decide_eq_false_2 by assumption. apply filter_none.
    eapply Forall_impl; [apply listed_category|]. intros i Hi. simpl in Hi.
    apply bool_decide_eq_false_2. congruence.
Qed.

Lemma sorted_reread (status : option PushStatus) (push_list : option PushList)
    (g : list PushItem) :
  Sorted path_lt g -> Sorted path_le (reread status push_list <$> g).
Proof.
  induction g as [|x g IH]; intros S; [constructor|].
  inversion S as [|? ? S' Hd]; subst. rewrite fmap_cons.
  constructor; [apply IH, S'|].
  destruct g as [|y g]; [constructor|]. rewrite fmap_cons. constructor.
  inversion Hd; subst. unfold path_le. simpl. apply path_ltb_asym. assumption.
Qed.

(** A group read back is the group that was written. *)
Lemma listed_read_back (status : option PushStatus) (push_list : option PushList)
    (c : PushCategory) (r : PushItems) :
  listed c (reread status push_list <$> file_order r)
  = reread status push_list <$> listed c r.
Proof.
  destruct (listed_spec c r) as (S & N & _).
  unfold listed at 1. destruct (decide (c = BLOCKED)) as [->|Hc].
  - rewrite bool_decide_eq_true_2 by reflexivity. reflexivity.
  - rewrite bool_decide_eq_false_2 by assumption.
    unfold bin_of. rewrite filter_reread, filter_file_order.
    rewrite (fold_set_add_id _ []) by (rewrite app_nil_l, path_fmap_reread; exact N).
    rewrite app_nil_l. apply sorted_by_path_of_sorted, sorted_reread, S.
Qed.

Lemma group_lines_reread `{World} (status : option PushStatus)
    (push_list : option PushList) (c : PushCategory) (g : list PushItem) :
  group_lines c (reread status push_list <$> g) = group_lines c g.
Proof.
  destruct g as [|i g]; [reflexivity|]. unfold group_lines. rewrite fmap_cons.
  f_equal. f_equal. rewrite <- fmap_cons, <- list_fmap_compose. reflexivity.
Qed.

(** Writing what was read back gives the same text. *)
Lemma write_again `{World} (status : option PushStatus) (push_list : option PushList)
    (r : PushItems) :
  Forall (fun i => is_Some (category i)) r ->
  to_server_file (reread status push_list <$> file_order r) = to_server_file r.
Proof.
  intros Hc. rewrite (to_server_file_groups r Hc).
  rewrite to_server_file_groups.
  - do 2 f_equal. apply flat_map_ext. intros c.
    rewrite listed_read_back. apply group_lines_reread.
  - apply Forall_fmap. unfold file_order. apply flat_map_Forall. intros c.
    rewrite Forall_forall. intros i Hi. simpl.
    destruct (listed_spec c r) as (_ & _ & Hin & _).
    destruct (Hin i Hi) as (_ & E & _). rewrite E. eexists; reflexivity.
Qed.

(** ** The round trip *)

Lemma triple_fmap_reread (status : option PushStatus) (push_list : option PushList)
    (l : list PushItem) : triple <$> (reread status push_list <$> l) = triple <$> l.
Proof. rewrite <- list_fmap_compose. reflexivity. Qed.

(** C5, as the code has it. For a registry of writable items with
    pairwise distinct paths (items that [add] stores unchanged, that are
    on disk unless [DELETED], none [BLOCKED], with path and url texts
    free of [#], line feeds and outer white space), [to_server_file]
    returns a text from which [from_server_file] returns the members in
    the order of the file, with the status and list of the caller: the
    same (path, category, url) triples as the registry's. Writing that
    result gives the same text again, so the round trip holds. *)
Theorem server_file_round_trip `{World} (status : option PushStatus)
    (push_list : option PushList) (r : PushItems) :
  NoDup (path <$> r) ->
  Forall (fun i => writable i = true) r ->
  let r1 := reread status push_list <$> file_order r in
  (exists text,
      to_server_file r = Ok text
      /\ from_server_file text status push_list = Ok r1
      /\ to_server_file r1 = Ok text)
  /\ triple <$> r1 ≡ₚ triple <$> r
  /\ round_trips status push_list r.
Proof.
  intros N Hw r1. destruct (writable_has_category r Hw) as (Hc & Hb).
  assert (P : triple <$> r1 ≡ₚ triple <$> r).
  { unfold r1. rewrite triple_fmap_reread. apply fmap_Permutation.
    apply file_order_perm; assumption. }
  assert (E : exists text, to_server_file r = Ok text).
  { eexists. apply to_server_file_groups, Hc. }
  destruct E as (text & Et).
  pose proof (read_back status push_list r text N Hw Et) as Er. fold r1 in Er.
  assert (Ew : to_server_file r1 = Ok text).
  { unfold r1. rewrite write_again by assumption. exact Et. }
  split; [exists text; auto|]. split; [exact P|].
  exists text, r1, text, r1. repeat split; try assumption; try tauto.
  - intros Ht. rewrite <- P. exact Ht.
  - intros Ht. rewrite P. exact Ht.
Qed.

Lemma server_file_round_trip_witness :
  let r := [ PushItem4 (PurePath.of_str "a/b") (Some UPGRADE) (Some IN_DEV) "45";
             PushItem4 (PurePath.of_str "ofl/mavenpro") (Some NEW) (Some LIVE) "1";
             PushItem4 (PurePath.of_str "ofl/gone") (Some DELETED) None "" ] in
  NoDup (path <$> r)
  /\ Forall (fun i => @writable example_world i = true) r
  /\ @round_trips example_world (Some IN_DEV) None r.
Proof.
  cbv zeta.
  assert (N : NoDup (path <$>
     [ PushItem4 (PurePath.of_str "a/b") (Some UPGRADE) (Some IN_DEV) "45";
       PushItem4 (PurePath.of_str "ofl/mavenpro") (Some NEW) (Some LIVE) "1";
       PushItem4 (PurePath.of_str "ofl/gone") (Some DELETED) None "" ])).
  { apply (bool_decide_unpack _). vm_compute. exact I. }
  assert (W : Forall (fun i => @writable example_world i = true)
     [ PushItem4 (PurePath.of_str "a/b") (Some UPGRADE) (Some IN_DEV) "45";
       PushItem4 (PurePath.of_str "ofl/mavenpro") (Some NEW) (Some LIVE) "1";
       PushItem4 (PurePath.of_str "ofl/gone") (Some DELETED) None "" ]).
  { repeat constructor. }
  split; [exact N|]. split; [exact W|].
  exact (proj2 (proj2 (@server_file_round_trip example_world (Some IN_DEV) None _ N W))).
Defined.

(** The registry that [add] leaves for the file
    [ofl/notosans/article/images/icons/noto.png] holds one item at
    [ofl/notosans/article/images]. Reading its server file gives an item
    at [ofl/notosans/article]; writing and reading that gives an item at
    [ofl/notosans]. Neither the two texts nor the registry and what is
    read hold the same items. *)
Lemma article_images_do_not_round_trip :
  let item p := PushItem4 (PurePath.of_str p) (Some NEW) (Some IN_DEV) "1" in
  let r := @add_all example_world []
             [ item ("ofl/notosans/article/images/icons/noto.png" : str) ] in
  r = [ item ("ofl/notosans/article/images" : str) ]
  /\ (exists text1 text2,
        @to_server_file example_world r = Ok text1
        /\ @from_server_file example_world text1 (Some IN_DEV) None
           = Ok [ item ("ofl/notosans/article" : str) ]
        /\ @to_server_file example_world [ item ("ofl/notosans/article" : str) ] = Ok text2
        /\ @from_server_file example_world text2 (Some IN_DEV) None
           = Ok [ item ("ofl/notosans" : str) ]
        /\ text2 <> text1)
  /\ ~ same_items [ item ("ofl/notosans/article" : str) ] r
  /\ ~ same_items [ item ("ofl/notosans" : str) ] [ item ("ofl/notosans/article" : str) ]
  /\ ~ @round_trips example_world (Some IN_DEV) None r.
Proof.
  cbv zeta. split; [reflexivity|].
  assert (S1 : ~ same_items
     [ PushItem4 (PurePath.of_str "ofl/notosans/article") (Some NEW) (Some IN_DEV) "1" ]
     [ PushItem4 (PurePath.of_str "ofl/notosans/article/images") (Some NEW) (Some IN_DEV) "1" ]).
  { intros S.
    specialize (S (triple (PushItem4 (PurePath.of_str "ofl/notosans/article")
                                     (Some NEW) (Some IN_DEV) "1"))).
    destruct S as (S & _). specialize (S ltac:(left)).
    apply list_elem_of_singleton in S. vm_compute in S. discriminate. }
  split; [|split; [exact S1|split]].
  - exists ("# New
ofl/notosans/article/images # 1
" : str), ("# New
ofl/notosans/article # 1
" : str).
    split; [vm_compute; reflexivity|]. split; [vm_compute; reflexivity|].
    split; [vm_compute; reflexivity|]. split; [vm_compute; reflexivity|].
    vm_compute. discriminate.
  - intros S.
    specialize (S (triple (PushItem4 (PurePath.of_str "ofl/notosans")
                                     (Some NEW) (Some IN_DEV) "1"))).
    destruct S as (S & _). specialize (S ltac:(left)).
    apply list_elem_of_singleton in S. vm_compute in S. discriminate.
  - intros (t1 & r1 & t2 & r2 & E1 & E2 & E3 & E4 & _ & S).
    vm_compute in E1. injection E1 as <-.
    vm_compute in E2. injection E2 as <-.
    apply S1. exact S.
Qed.

(** An item that is not on disk is written with the [# Deleted: ] mark
    under the heading of its category and is read back with the category
    [DELETED]. *)
Lemma absent_item_is_read_as_deleted :
  let r := [ PushItem4 (PurePath.of_str "ofl/gone") (Some NEW) (Some IN_DEV) "7" ] in
  exists text,
    @to_server_file example_world r = Ok text
    /\ @from_server_file example_world text (Some IN_DEV) None
       = Ok [ PushItem4 (PurePath.of_str "ofl/gone") (Some DELETED) (Some IN_DEV) "7" ].
Proof.
  cbv zeta. exists ("# New
# Deleted: ofl/gone # 7
" : str).
  split; vm_compute; reflexivity.
Qed.

(** ** Lines that are not read *)

(** A line is taken exactly when it is readable; otherwise the unpacking
    of [line.split("#")] raises [ValueError]. *)
Lemma from_server_file_line_outcome `{World} (status : option PushStatus)
    (push_list : option PushList) (st : Decoder) (line : str) :
  if readable line
  then exists st', from_server_file_line status push_list st line = Ok st'
  else from_server_file_line status push_list st line = Raised ValueError.
Proof.
  unfold readable, unmarked. destruct line as [|x line]; [eexists; reflexivity|].
  unfold from_server_file_line.
  destruct (PyStr.startswith "#" _) eqn:E1; [eexists; reflexivity|].
  destruct (PyStr.has_char "#" _) eqn:E2; [|eexists; reflexivity].
  simpl orb. simpl negb. simpl orb.
  destruct (PyStr.split "#" _) as [|a [|b [|c l]]]; simpl;
    try reflexivity; eexists; reflexivity.
Qed.

(** A text of readable lines is read without an exception. *)
Lemma from_server_file_returns `{World} (status : option PushStatus)
    (push_list : option PushList) (text : str) :
  Forall (fun l => readable l = true) (PyStr.split NL text) ->
  exists r, from_server_file text status push_list = Ok r.
Proof.
  intros Hl. unfold from_server_file.
  assert (E : forall lines st, Forall (fun l => readable l = true) lines ->
            exists st', for_each (from_server_file_line status push_list) lines st = Ok st').
  { induction lines as [|l lines IH]; intros st F; [eexists; reflexivity|].
    apply Forall_cons_1 in F as (Hr & F).
    pose proof (from_server_file_line_outcome status push_list st l) as Ho.
    rewrite Hr in Ho. destruct Ho as (st1 & E1).
    rewrite for_each_cons, E1. apply (IH st1 F). }
  destruct (E _ (mkDecoder (Some OTHER) false []) Hl) as (st' & E').
  rewrite E'. eexists; reflexivity.
Qed.

(** C8. A line on which a [#] follows the [#] that separates path and
    url, such as a url with a fragment, is not read: [from_server_file]
    raises [ValueError], whatever the status and list passed. Such a line
    is what [to_server_file] writes for an item whose url holds a [#]. *)
Theorem line_with_second_hash_raises `{World} (status : option PushStatus)
    (push_list : option PushList) :
  let url := ("https://github.com/google/fonts/pull/2#issuecomment-1" : str) in
  from_server_file
    ("ofl/mavenpro # https://github.com/google/fonts/pull/2#issuecomment-1" : str)
    status push_list
  = Raised ValueError
  /\ readable ("ofl/mavenpro # https://github.com/google/fonts/pull/2#issuecomment-1" : str)
     = false
  /\ (exists text,
        @to_server_file example_world
          [ PushItem4 (PurePath.of_str "ofl/mavenpro") (Some UPGRADE) (Some IN_DEV) url ]
        = Ok text
        /\ from_server_file text status push_list = Raised ValueError).
Proof.
  cbv zeta. split; [reflexivity|]. split; [reflexivity|].
  exists ("# Upgrade
ofl/mavenpro # https://github.com/google/fonts/pull/2#issuecomment-1
" : str).
  split; [vm_compute; reflexivity | reflexivity].
Qed.

(** ** Path objects *)

Lemma split_fields (sep : ascii) (s : str) :
  PyStr.split sep s <> []
  /\ Forall (fun f => PyStr.has_char sep f = false) (PyStr.split sep s).
Proof.
  induction s as [|c s (Hne & IH)]; simpl.
  - split; [discriminate | repeat constructor].
  - destruct (bool_decide (c = sep)) eqn:E.
    + split; [discriminate | constructor; [reflexivity | exact IH]].
    + destruct (PyStr.split sep s) as [|f fs]; [congruence|].
      apply Forall_cons_1 in IH as (Hf & Hfs).
      split; [discriminate|]. constructor; [|exact Hfs].
      simpl. rewrite E, Hf. reflexivity.
Qed.

Lemma kept_segments_good (s : str) :
  Forall (fun x => good_segment x = true)
         (List.filter PurePath.kept_segment (PyStr.split "/" s)).
Proof.
  destruct (split_fields "/" s) as (_ & F).
  induction F as [|f fs Hf _ IH]; simpl; [constructor|].
  destruct (PurePath.kept_segment f) eqn:E; [|exact IH].
  constructor; [|exact IH]. unfold good_segment. rewrite E, Hf. reflexivity.
Qed.

Lemma good_segment_inv (x : str) :
  good_segment x = true ->
  PurePath.kept_segment x = true /\ PyStr.has_char "/" x = false
  /\ exists c r, x = c :: r /\ c <> "/"%char.
Proof.
  unfold good_segment. intros E. apply andb_prop in E as (E1 & E2).
  apply negb_true_iff in E2. repeat split; try assumption.
  destruct x as [|c r]; [discriminate|]. exists c, r. split; [reflexivity|].
  simpl in E2. apply orb_false_elim in E2 as (E2 & _).
  apply bool_decide_eq_false in E2. exact E2.
Qed.

Lemma good_segment_not_anchor (x : str) :
  good_segment x = true -> PurePath.is_anchor x = false.
Proof.
  intros E. destruct (good_segment_inv x E) as (_ & _ & c & r & -> & Hc).
  unfold PurePath.is_anchor, PyStr.eqb.
  rewrite !bool_decide_eq_false_2; [reflexivity | |]; intros [= -> _]; congruence.
Qed.

(** The text of good segments is parsed back into them. *)
Lemma parse_joined_segments (segs : list str) :
  segs <> [] ->
  Forall (fun x => good_segment x = true) segs ->
  List.filter PurePath.kept_segment (PyStr.split "/" (PyStr.join "/" segs)) = segs.
Proof.
  intros Hne F. change (list_ascii_of_string "/") with ["/"%char].
  rewrite (split_join "/" segs Hne).
  - apply filter_all. eapply Forall_impl; [exact F|].
    intros x Hx. apply (good_segment_inv x Hx).
  - eapply Forall_impl; [exact F|]. intros x Hx. apply (good_segment_inv x Hx).
Qed.

Lemma joined_segments_head (segs : list str) :
  segs <> [] ->
  Forall (fun x => good_segment x = true) segs ->
  exists c r, PyStr.join "/" segs = c :: r /\ c <> "/"%char.
Proof.
  intros Hne F. destruct segs as [|a tail]; [congruence|].
  apply Forall_cons_1 in F as (Ha & _).
  destruct (good_segment_inv a Ha) as (_ & _ & c & r & -> & Hc).
  destruct tail as [|b tail]; simpl; eauto.
Qed.

(** Parsing the text of a path object gives the path object. *)
Lemma of_str_to_str (p : Path) :
  path_object p = true -> PurePath.of_str (PurePath.to_str p) = p.
Proof.
  destruct p as [|a tail]; [reflexivity|]. simpl path_object. intros E.
  apply andb_prop in E as (Ea & Et).
  assert (Ft : Forall (fun x => good_segment x = true) tail).
  { apply Forall_forall. intros x Hx. rewrite forallb_forall in Et.
    apply Et, list_elem_of_In, Hx. }
  unfold PurePath.to_str. destruct (PurePath.is_anchor a) eqn:Ean.
  - (* a root followed by segments *)
    destruct tail as [|b tail'].
    + unfold PurePath.is_anchor in Ean. apply orb_prop in Ean as [Ean|Ean];
        apply eqb_true in Ean; subst a; reflexivity.
    + destruct (joined_segments_head (b :: tail') ltac:(discriminate) Ft)
        as (c & r & Ej & Hc).
      pose proof (parse_joined_segments (b :: tail') ltac:(discriminate) Ft) as Ep.
      rewrite Ej in Ep.
      unfold PurePath.is_anchor in Ean. apply orb_prop in Ean as [Ean|Ean];
        apply eqb_true in Ean; subst a; rewrite Ej;
        unfold PurePath.of_str; simpl;
        rewrite (bool_decide_eq_false_2 ("/"%char = c)) by congruence;
        simpl; rewrite (bool_decide_eq_false_2 (c = "/"%char)) by congruence;
        simpl in Ep; rewrite (bool_decide_eq_false_2 (c = "/"%char)) in Ep by congruence;
        rewrite Ep; reflexivity.
  - (* segments only *)
    simpl in Ea.
    assert (F : Forall (fun x => good_segment x = true) (a :: tail))
      by (constructor; assumption).
    destruct (joined_segments_head (a :: tail) ltac:(discriminate) F)
      as (c & r & Ej & Hc).
    pose proof (parse_joined_segments (a :: tail) ltac:(discriminate) F) as Ep.
    unfold PurePath.of_str. rewrite Ep, Ej. simpl.
    rewrite (bool_decide_eq_false_2 ("/"%char = c)) by congruence. reflexivity.
Qed.

(** Every path built from a text is a path object. *)
Lemma of_str_path_object (s : str) : path_object (PurePath.of_str s) = true.
Proof.
  pose proof (kept_segments_good s) as F. unfold PurePath.of_str.
  assert (Hall : forallb good_segment
                   (List.filter PurePath.kept_segment (PyStr.split "/" s)) = true).
  { apply forallb_forall. intros x Hx. rewrite Forall_forall in F.
    apply F, list_elem_of_In, Hx. }
  destruct (PyStr.startswith "///" s); [exact Hall|].
  destruct (PyStr.startswith "//" s); [exact Hall|].
  destruct (PyStr.startswith "/" s); [exact Hall|].
  destruct (List.filter PurePath.kept_segment (PyStr.split "/" s)) as [|a tail];
    [reflexivity|].
  simpl in Hall. simpl. apply andb_prop in Hall as (Ha & Ht).
  rewrite Ha, Ht, orb_true_r. reflexivity.
Qed.

(** [Path(str(Path(s))) == Path(s)] *)
Lemma of_str_idempotent (s : str) :
  PurePath.of_str (PurePath.to_str (PurePath.of_str s)) = PurePath.of_str s.
Proof. apply of_str_to_str, of_str_path_object. Qed.

(** ** The tests of the repository *)

(** [test_push_items_add] of [tests/test_push.py]: the paths left in the
    registry for each list of items. *)
Example test_push_items_add :
  let paths items := path <$> @add_all test_world [] (test_item <$> items) in
  paths [ ("ofl/mavenpro/MavenPro[wght].ttf" : str) ]
    = [ PurePath.of_str "ofl/mavenpro" ]
  /\ paths [ ("ofl/mavenpro/MavenPro[wght].ttf" : str);
             ("ofl/mavenpro/MavenPro-Italic[wght].ttf" : str) ]
     = [ PurePath.of_str "ofl/mavenpro" ]
  /\ paths [ ("axisregistry/Lib/axisregistry/data/bounce.textproto" : str);
             ("axisregistry/Lib/axisregistry/data/morph.textproto" : str) ]
     = [ PurePath.of_str "axisregistry/bounce.textproto";
         PurePath.of_str "axisregistry/morph.textproto" ]
  /\ paths [ ("lang/Lib/gflanguages/data/languages/aa_Latn.textproto" : str) ]
     = [ PurePath.of_str "lang/languages/aa_Latn.textproto" ]
  /\ paths [ ("ofl/mavenpro" : str); ("ofl" : str) ] = [ PurePath.of_str "ofl/mavenpro" ]
  /\ paths [ ("ofl" : str); ("ofl/mavenpro" : str) ] = [ PurePath.of_str "ofl/mavenpro" ]
  /\ paths [ ("ofl" : str); ("apache" : str); ("lang/authors.txt" : str) ] = []
  /\ paths [ ("ofl/notosans/article/index.html" : str) ]
     = [ PurePath.of_str "ofl/notosans" ]
  /\ paths [ ("ofl/notosans/article" : str); ("ofl/notosans/NotoSans[wght].ttf" : str);
             ("ofl/notosans/DESCRIPTION.en_us.html" : str);
             ("ofl/notosans/upstream.yaml" : str); ("ofl/notosans/OFL.txt" : str);
             ("ofl/notosans/DESCRIPTION.en_us.html" : str) ]
     = [ PurePath.of_str "ofl/notosans" ]
  /\ paths [ ("ofl/notosanspsalterpahlavi/METADATA.pb" : str);
             ("ofl/notosans/METADATA.pb" : str) ]
     = [ PurePath.of_str "ofl/notosanspsalterpahlavi"; PurePath.of_str "ofl/notosans" ]
  /\ paths [ ("ofl/notosans/METADATA.pb" : str);
             ("ofl/notosanspsalterpahlavi/METADATA.pb" : str) ]
     = [ PurePath.of_str "ofl/notosans"; PurePath.of_str "ofl/notosanspsalterpahlavi" ]
  /\ paths [ ("catalog/designers/colophonfoundry/bio.html" : str);
             ("catalog/designers/colophonfoundry/colophonfoundry.png" : str);
             ("catalog/designers/colophonfoundry/info.pb" : str) ]
     = [ PurePath.of_str "catalog/designers/colophonfoundry" ].
Proof. cbv zeta. repeat split; vm_compute; reflexivity. Qed.

(** [test_push_items_from_server_file]: the number of items read. *)
Example test_push_items_from_server_file :
  let size text :=
    match @from_server_file test_world text (Some IN_DEV) (Some TO_SANDBOX) with
    | Ok items => Some (length items)
    | Raised _ => None
    end in
  size ("ofl/noto # 2" : str) = Some 1
  /\ size ("# New
ofl/noto # 2
ofl/foobar # 3

# Upgrade
ofl/mavenPro # 4" : str) = Some 3.
Proof. split; vm_compute; reflexivity. Qed.

(** [test_push_items_to_server_file], second case: three items at the
    same path are written once. The path is on disk in [example_world]. *)
Example test_push_items_to_server_file_duplicates :
  let item := PushItem4 (PurePath.of_str "a/b") (Some UPGRADE) (Some IN_DEV) "45" in
  @to_server_file example_world [item; item; item]
  = Ok ("# Upgrade
a/b # 45
" : str).
Proof. vm_compute. reflexivity. Qed.

(* ===================================================================== *)
(** * Further properties *)
(* ===================================================================== *)

(** ** The registry under [add] *)



Lemma without_path_last (p : Path) (w : PushItems) (x : PushItem) :
  p ∉ (path <$> w) -> path x = p -> without_path p (w ++ [x]) = w.
Proof.
  intros Hw Hx. unfold without_path.
  destruct (first_index _ (w ++ [x])) as [n|] eqn:E.
  - apply first_index_some in E as (l1 & y & l2 & El & <- & Hy & Hl1).
    apply path_eqb_true in Hy.
    destruct l2 as [|z l2].
    + apply app_inj_tail in El as (-> & ->).
      rewrite pop_middle, app_nil_r. reflexivity.
    + exfalso. apply Hw. rewrite <- Hy.
      assert (Hin : y ∈ w).
      { assert (E2 : w ++ [x] = (l1 ++ y :: removelast (z :: l2)) ++ [List.last (z :: l2) x]).
        { rewrite El, <- app_assoc. simpl app at 2. f_equal. f_equal.
          apply (app_removelast_last (l:=z :: l2)). discriminate. }
        apply app_inj_tail in E2 as (-> & _).
        apply elem_of_app. right. left. }
      apply list_elem_of_fmap_2, Hin.
  - apply first_index_none in E. rewrite Forall_forall in E.
    specialize (E x). rewrite Hx in E.
    assert (PurePath.eqb p p = false) as Hf.
    { apply E. apply elem_of_app. right. left. }
    apply path_eqb_false in Hf. congruence.
Qed.



(** X3. In a registry with pairwise distinct paths, none of one part,
    [add] following [add] of an item changes nothing in two cases: when
    it is given a second item with the fields of the first (as
    [from_server_file] builds for a line that a file repeats), and when
    it is given the item as the first [add] stored it and [add] leaves
    the stored path unchanged. *)
Theorem add_again_changes_nothing `{World} (self : PushItems) (item : PushItem) :
  NoDup (path <$> self) -> no_bare_root self ->
  add (add self item) item = add self item
  /\ (forall item', stored item = Some item' ->
                    add_path (path item') = Some (path item') ->
                    add (add self item) item' = add self item).
Proof.
  intros N R. split.
  - rewrite (add_unfold (add self item)) by (apply add_no_bare_root, R).
    rewrite (add_unfold self) by assumption.
    destruct (add_path (path item)) as [p|]; [|reflexivity].
    destruct (length p =? 1); [reflexivity|].
    destruct (without_path_NoDup p self N) as (_ & Hp).
    rewrite without_path_last; [reflexivity | exact Hp | reflexivity].
  - intros item' Es Ef.
    rewrite (add_unfold (add self item)) by (apply add_no_bare_root, R).
    rewrite (add_unfold self) by assumption.
    destruct (path_of_stored item item' Es) as (Ea & El).
    rewrite Ef, Ea. apply Nat.eqb_neq in El. rewrite El.
    assert (Ei : set_path item (path item') = item').
    { unfold stored in Es. rewrite Ea, El in Es. injection Es as <-. reflexivity. }
    rewrite Ei, set_path_same.
    destruct (without_path_NoDup (path item') self N) as (_ & Hp).
    rewrite without_path_last; [reflexivity | exact Hp | reflexivity].
Qed.

Lemma add_again_changes_nothing_witness :
  let self := [ test_item ("ofl/notosans" : str) ] in
  let item := test_item ("ofl/mavenpro/METADATA.pb" : str) in
  let item' := test_item ("ofl/mavenpro" : str) in
  NoDup (path <$> self) /\ no_bare_root self
  /\ @stored example_world item = Some item'
  /\ @add_path example_world (path item') = Some (path item')
  /\ @add example_world (@add example_world self item) item
     = @add example_world self item
  /\ @add example_world (@add example_world self item) item'
     = @add example_world self item.
Proof.
  cbv zeta.
  assert (N : NoDup (path <$> [ test_item ("ofl/notosans" : str) ]))
    by apply NoDup_singleton.
  assert (R : no_bare_root [ test_item ("ofl/notosans" : str) ]).
  { constructor; [vm_compute; discriminate | constructor]. }
  assert (Es : @stored example_world (test_item ("ofl/mavenpro/METADATA.pb" : str))
               = Some (test_item ("ofl/mavenpro" : str))) by (vm_compute; reflexivity).
  assert (Ef : @add_path example_world (path (test_item ("ofl/mavenpro" : str)))
               = Some (path (test_item ("ofl/mavenpro" : str))))
    by (vm_compute; reflexivity).
  split; [exact N|]. split; [exact R|]. split; [exact Es|]. split; [exact Ef|].
  pose proof (@add_again_changes_nothing example_world _
                (test_item ("ofl/mavenpro/METADATA.pb" : str)) N R) as (A & B).
  split; [exact A | exact (B _ Es Ef)].
Defined.

(** ** Writing the server file *)

Lemma to_bins_raises (self : PushItems) (bins : gmap str (list PushItem)) :
  Exists (fun i => category i = None) self ->
  for_each
    (fun (bins : gmap str (list PushItem)) item =>
       match category item with
       | Some BLOCKED => Ok bins
       | Some c =>
           Ok (<[Category.value c :=
                   set_add item (default [] (bins !! Category.value c))]> bins)
       | None => Raised AttributeError
       end)
    self bins
  = Raised AttributeError.
Proof.
  intros E. revert bins. induction self as [|x self IH]; intros bins.
  - inversion E.
  - rewrite for_each_cons. destruct (category x) as [c|] eqn:Ec.
    + assert (E' : Exists (fun i => category i = None) self).
      { inversion E as [? ? Hx|]; subst; [congruence | assumption]. }
      destruct c; unfold mbind, Outcome_bind; apply IH, E'.
    + reflexivity.
Qed.

Lemma categories_present (self : PushItems) :
  None ∉ (category <$> self) -> Forall (fun i => is_Some (category i)) self.
Proof.
  intros Hn. apply Forall_forall. intros i Hi.
  destruct (category i) as [c|] eqn:E; [eexists; reflexivity|].
  exfalso. apply Hn. rewrite <- E. apply list_elem_of_fmap_2, Hi.
Qed.

Lemma category_missing (self : PushItems) :
  None ∈ (category <$> self) -> Exists (fun i => category i = None) self.
Proof.
  intros Hn. apply list_elem_of_fmap in Hn as (i & E & Hi).
  apply Exists_exists. exists i. split; [exact Hi | congruence].
Qed.

(** X4. The text that [to_server_file] hands to [doc.write] is built
    exactly when every member has a category. A member without one makes
    the first loop raise [AttributeError], before the file is opened or
    written; with a category on every member both loops return, and the
    text is the groups of the categories in declaration order. *)
Theorem to_server_file_needs_categories `{World} (self : PushItems) :
  if bool_decide (None ∈ category <$> self)
  then to_bins self = Raised AttributeError
       /\ to_server_file self = Raised AttributeError
  else (exists bins, to_bins self = Ok bins)
       /\ to_server_file self =
            Ok (PyStr.join [NL]
                  (flat_map (fun c => group_lines c (listed c self)) Category.members)).
Proof.
  destruct (bool_decide (None ∈ category <$> self)) eqn:E.
  - apply bool_decide_eq_true in E.
    assert (B : to_bins self = Raised AttributeError).
    { unfold to_bins. apply to_bins_raises, category_missing, E. }
    split; [exact B|]. unfold to_server_file. rewrite B. reflexivity.
  - apply bool_decide_eq_false in E. split.
    + destruct (to_bins_spec self (categories_present self E)) as (bins & B & _).
      exists bins. exact B.
    + apply to_server_file_groups, categories_present, E.
Qed.

Lemma filter_perm {A} (f : A -> bool) (l l' : list A) :
  l ≡ₚ l' -> List.filter f l ≡ₚ List.filter f l'.
Proof.
  induction 1 as [|x l l' _ IH|x y l|l l' l'' _ IH1 _ IH2]; simpl.
  - reflexivity.
  - destruct (f x); [constructor|]; exact IH.
  - destruct (f x), (f y); try reflexivity. apply Permutation_swap.
  - etransitivity; eassumption.
Qed.

Lemma listed_perm (c : PushCategory) (r r' : PushItems) :
  NoDup (path <$> r) -> r ≡ₚ r' -> listed c r = listed c r'.
Proof.
  intros N P. unfold listed. destruct (bool_decide (c = BLOCKED)); [reflexivity|].
  assert (N' : NoDup (path <$> r')) by (rewrite <- P; exact N).
  rewrite !bin_of_distinct by assumption.
  apply sorted_by_path_unique.
  - eapply sublist_NoDup; [exact N | apply filter_paths_sublist].
  - apply filter_perm, P.
Qed.

(** X5. The text written does not depend on the order of the members: two
    registries with the same members, of pairwise distinct paths, have
    the same server file (or both have none). *)
Theorem to_server_file_any_order `{World} (r r' : PushItems) :
  NoDup (path <$> r) -> r ≡ₚ r' -> to_server_file r = to_server_file r'.
Proof.
  intros N P.
  destruct (decide (None ∈ category <$> r)) as [Hn|Hn].
  - assert (Hn' : None ∈ category <$> r') by (rewrite <- P; exact Hn).
    unfold to_server_file, to_bins.
    rewrite !to_bins_raises by (apply category_missing; assumption). reflexivity.
  - assert (Hn' : None ∉ category <$> r') by (rewrite <- P; exact Hn).
    rewrite !to_server_file_groups by (apply categories_present; assumption).
    do 2 f_equal. apply flat_map_ext. intros c.
    rewrite (listed_perm c r r' N P). reflexivity.
Qed.

Lemma to_server_file_any_order_witness :
  let a := PushItem4 (PurePath.of_str "a/b") (Some UPGRADE) (Some IN_DEV) "45" in
  let b := PushItem4 (PurePath.of_str "a/c") (Some UPGRADE) (Some IN_DEV) "46" in
  NoDup (path <$> [a; b]) /\ [a; b] ≡ₚ [b; a]
  /\ @to_server_file example_world [a; b] = @to_server_file example_world [b; a].
Proof.
  cbv zeta.
  assert (N : NoDup (path <$>
     [ PushItem4 (PurePath.of_str "a/b") (Some UPGRADE) (Some IN_DEV) "45";
       PushItem4 (PurePath.of_str "a/c") (Some UPGRADE) (Some IN_DEV) "46" ])).
  { apply (bool_decide_unpack _). vm_compute. exact I. }
  assert (P : [ PushItem4 (PurePath.of_str "a/b") (Some UPGRADE) (Some IN_DEV) "45";
                PushItem4 (PurePath.of_str "a/c") (Some UPGRADE) (Some IN_DEV) "46" ]
              ≡ₚ
              [ PushItem4 (PurePath.of_str "a/c") (Some UPGRADE) (Some IN_DEV) "46";
                PushItem4 (PurePath.of_str "a/b") (Some UPGRADE) (Some IN_DEV) "45" ])
    by apply Permutation_swap.
  split; [exact N|]. split; [exact P|].
  exact (@to_server_file_any_order example_world _ _ N P).
Defined.

Lemma filter_filter_implied {A} (f g : A -> bool) (l : list A) :
  (forall x, f x = true -> g x = true) ->
  List.filter f (List.filter g l) = List.filter f l.
Proof.
  intros Hfg. induction l as [|x l IH]; [reflexivity|]. simpl.
  destruct (g x) eqn:Eg; simpl.
  - destruct (f x); rewrite IH; reflexivity.
  - destruct (f x) eqn:Ef; [rewrite (Hfg x Ef) in Eg; discriminate | exact IH].
Qed.

(** X6. [BLOCKED] members have no part in the server file: the text
    written for a registry is the text written for the registry without
    its [BLOCKED] members. *)
Theorem to_server_file_ignores_blocked `{World} (self : PushItems) :
  to_server_file self
  = to_server_file
      (List.filter (fun i => negb (bool_decide (category i = Some BLOCKED))) self).
Proof.
  set (kept := List.filter (fun i => negb (bool_decide (category i = Some BLOCKED))) self).
  destruct (decide (None ∈ category <$> self)) as [Hn|Hn].
  - assert (Hn' : None ∈ category <$> kept).
    { apply list_elem_of_fmap in Hn as (i & E & Hi).
      rewrite E. apply list_elem_of_fmap_2, list_elem_of_In, filter_In.
      split; [apply list_elem_of_In, Hi|].
      rewrite <- E. reflexivity. }
    unfold to_server_file, to_bins.
    rewrite !to_bins_raises by (apply category_missing; assumption). reflexivity.
  - assert (Hn' : None ∉ category <$> kept).
    { intros Hin. apply Hn. apply list_elem_of_fmap in Hin as (i & E & Hi).
      rewrite E. apply list_elem_of_fmap_2.
      apply list_elem_of_In, filter_In in Hi as (Hi & _). apply list_elem_of_In, Hi. }
    rewrite !to_server_file_groups by (apply categories_present; assumption).
    do 2 f_equal. apply flat_map_ext. intros c. f_equal.
    unfold listed. destruct (decide (c = BLOCKED)) as [->|Hc].
    + rewrite bool_decide_eq_true_2 by reflexivity. reflexivity.
    + rewrite bool_decide_eq_false_2 by assumption. f_equal.
      unfold bin_of, kept. rewrite filter_filter_implied; [reflexivity|].
      intros i Hi. apply bool_decide_eq_true in Hi. rewrite Hi.
      rewrite bool_decide_eq_false_2 by congruence. reflexivity.
Qed.

(** X7. Of several members with the same path and category the file keeps
    the first: an item appended to a registry that holds a member with
    its path and its category does not change the text written. *)
Theorem to_server_file_first_duplicate_wins `{World} (self : PushItems)
    (x y : PushItem) (c : PushCategory) :
  y ∈ self -> path y = path x -> category y = Some c -> category x = Some c ->
  to_server_file (self ++ [x]) = to_server_file self.
Proof.
  intros Hy Ep Ey Ex.
  destruct (decide (None ∈ category <$> self)) as [Hn|Hn].
  - assert (Hn' : None ∈ category <$> self ++ [x]).
    { rewrite fmap_app. apply elem_of_app. left. exact Hn. }
    unfold to_server_file, to_bins.
    rewrite !to_bins_raises by (apply category_missing; assumption). reflexivity.
  - assert (Hn' : None ∉ category <$> self ++ [x]).
    { rewrite fmap_app. intros Hin. apply elem_of_app in Hin as [Hin|Hin];
        [contradiction|]. apply list_elem_of_singleton in Hin. congruence. }
    rewrite !to_server_file_groups by (apply categories_present; assumption).
    do 2 f_equal. apply flat_map_ext. intros c'. f_equal.
    unfold listed. destruct (bool_decide (c' = BLOCKED)); [reflexivity|]. f_equal.
    rewrite bin_of_snoc, Ex.
    destruct (decide (c = c')) as [<-|Hne].
    + rewrite bool_decide_eq_true_2 by reflexivity.
      unfold set_add.
      assert (E : existsb (item_eqb x) (bin_of c self) = true); [|rewrite E; reflexivity].
      destruct (bin_of_spec c self) as (_ & _ & Hin).
      specialize (Hin y Hy Ey). apply list_elem_of_fmap in Hin as (z & Ez & Hz).
      apply existsb_exists. exists z. split; [apply list_elem_of_In, Hz|].
      apply path_eqb_true. congruence.
    + rewrite bool_decide_eq_false_2 by congruence. reflexivity.
Qed.

Lemma to_server_file_first_duplicate_wins_witness :
  let y := PushItem4 (PurePath.of_str "a/b") (Some UPGRADE) (Some IN_DEV) "45" in
  let x := PushItem4 (PurePath.of_str "a/b") (Some UPGRADE) (Some LIVE) "99" in
  y ∈ [y] /\ path y = path x /\ category y = Some UPGRADE /\ category x = Some UPGRADE
  /\ @to_server_file example_world ([y] ++ [x]) = @to_server_file example_world [y].
Proof.
  cbv zeta.
  assert (Hy : PushItem4 (PurePath.of_str "a/b") (Some UPGRADE) (Some IN_DEV) "45"
               ∈ [ PushItem4 (PurePath.of_str "a/b") (Some UPGRADE) (Some IN_DEV) "45" ])
    by left.
  split; [exact Hy|]. do 3 (split; [reflexivity|]).
  exact (@to_server_file_first_duplicate_wins example_world _
           (PushItem4 (PurePath.of_str "a/b") (Some UPGRADE) (Some LIVE) "99")
           _ UPGRADE Hy eq_refl eq_refl eq_refl).
Defined.

(** ** Reading the server file *)

Lemma read_lines_outcome `{World} (stat : option PushStatus) (plist : option PushList)
    (lines : list str) (st : Decoder) :
  if forallb readable lines
  then exists st', for_each (from_server_file_line stat plist) lines st = Ok st'
  else for_each (from_server_file_line stat plist) lines st = Raised ValueError.
Proof.
  revert st. induction lines as [|l lines IH]; intros st; [eexists; reflexivity|].
  simpl forallb. rewrite for_each_cons.
  pose proof (from_server_file_line_outcome stat plist st l) as Hl.
  destruct (readable l).
  - destruct Hl as (st1 & ->). simpl andb. apply (IH st1).
  - rewrite Hl. reflexivity.
Qed.

(** X8. [from_server_file] returns a registry exactly when every line of
    the text is a heading, has no [#], or is cut by [#] into two fields
    (after the [# Deleted: ] marks of a line that begins with [# Deleted]
    are removed); with any other line it raises [ValueError]. *)
Theorem from_server_file_outcome `{World} (stat : option PushStatus)
    (plist : option PushList) (text : str) :
  if forallb readable (PyStr.split NL text)
  then exists r, from_server_file text stat plist = Ok r
  else from_server_file text stat plist = Raised ValueError.
Proof.
  unfold from_server_file.
  pose proof (read_lines_outcome stat plist (PyStr.split NL text)
                (mkDecoder (Some OTHER) false [])) as Ho.
  destruct (forallb readable (PyStr.split NL text)).
  - destruct Ho as (st' & ->). eexists. reflexivity.
  - cbv zeta. rewrite Ho. reflexivity.
Qed.

(** The fields that [from_server_file] gives every item it builds. *)
Lemma from_server_file_line_step `{World} (stat : option PushStatus)
    (plist : option PushList) (st st' : Decoder) (line : str) :
  from_server_file_line stat plist st line = Ok st' ->
  results st' = results st
  \/ exists item, results st' = add (results st) item
                  /\ status item = stat /\ push_list item = plist
                  /\ merged item = None /\ id_ item = None.
Proof.
  unfold from_server_file_line. destruct line as [|x line].
  - intros [= <-]. left. reflexivity.
  - destruct (PyStr.startswith "#" _); [intros [= <-]; left; reflexivity|].
    destruct (PyStr.has_char "#" _).
    + destruct (PyStr.split "#" _) as [|a [|b [|c l]]]; try discriminate.
      intros [= <-]. right. eexists. repeat split.
    + intros [= <-]. right. eexists. repeat split.
Qed.

Lemma add_keeps_fields `{World} (P : PushItem -> Prop) (self : PushItems)
    (item : PushItem) :
  (forall p, P item -> P (set_path item p)) ->
  no_bare_root self -> Forall P self -> P item -> Forall P (add self item).
Proof.
  intros Hset R F Hi. rewrite add_unfold by assumption.
  destruct (add_path (path item)) as [p|]; [|exact F].
  destruct (length p =? 1); [exact F|].
  apply Forall_app. split.
  - rewrite Forall_forall in *. intros x Hx. apply F.
    eapply elem_of_sublist; [exact Hx | apply without_path_sublist].
  - constructor; [apply Hset, Hi | constructor].
Qed.

Lemma from_server_file_members `{World} (stat : option PushStatus)
    (plist : option PushList) (text : str) (r : PushItems) :
  from_server_file text stat plist = Ok r ->
  NoDup (path <$> r) /\ no_bare_root r
  /\ Forall (fun i => status i = stat /\ push_list i = plist
                      /\ merged i = None /\ id_ i = None) r.
Proof.
  unfold from_server_file. cbv zeta.
  set (P := fun i => status i = stat /\ push_list i = plist
                     /\ merged i = None /\ id_ i = None).
  assert (Inv : forall lines st st',
            for_each (from_server_file_line stat plist) lines st = Ok st' ->
            NoDup (path <$> results st) /\ no_bare_root (results st)
            /\ Forall P (results st) ->
            NoDup (path <$> results st') /\ no_bare_root (results st')
            /\ Forall P (results st')).
  { induction lines as [|l lines IH]; intros st st' E I.
    - injection E as <-. exact I.
    - rewrite for_each_cons in E.
      destruct (from_server_file_line stat plist st l) as [st1|e] eqn:E1;
        [|discriminate].
      apply (IH st1 st' E). destruct I as (N & R & F).
      destruct (from_server_file_line_step stat plist st st1 l E1)
        as [->|(item & -> & Hs & Hl & Hm & Hi)]; [auto|].
      split; [apply add_NoDup; assumption|].
      split; [apply add_no_bare_root; assumption|].
      apply add_keeps_fields; try assumption; [|repeat split; assumption].
      intros p Hp. exact Hp. }
  destruct (for_each _ _ _) as [st'|e] eqn:E; [|discriminate].
  intros [= <-]. apply (Inv _ _ _ E). simpl.
  repeat split; constructor.
Qed.

(** X9. Every registry that [from_server_file] returns has pairwise
    distinct paths, none of one part, and each of its members carries the
    status and the list that the caller passed, with no [merged] flag and
    no id: the file gives paths, categories and urls only. *)
Theorem from_server_file_result `{World} (stat : option PushStatus)
    (plist : option PushList) (text : str) (r : PushItems) :
  from_server_file text stat plist = Ok r ->
  NoDup (path <$> r) /\ no_bare_root r
  /\ Forall (fun i => status i = stat /\ push_list i = plist
                      /\ merged i = None /\ id_ i = None) r.
Proof. apply from_server_file_members. Qed.

Lemma from_server_file_result_witness :
  let text := ("# New
ofl/noto # 2
ofl/noto/METADATA.pb # 3" : str) in
  let r := [ mkPushItem (PurePath.of_str "ofl/noto") (Some NEW) (Some IN_DEV) "3"
                        (Some TO_SANDBOX) None None ] in
  @from_server_file example_world text (Some IN_DEV) (Some TO_SANDBOX) = Ok r
  /\ NoDup (path <$> r).
Proof.
  cbv zeta.
  assert (E : @from_server_file example_world ("# New
ofl/noto # 2
ofl/noto/METADATA.pb # 3" : str) (Some IN_DEV) (Some TO_SANDBOX)
     = Ok [ mkPushItem (PurePath.of_str "ofl/noto") (Some NEW) (Some IN_DEV) "3"
                       (Some TO_SANDBOX) None None ]).
  { vm_compute. reflexivity. }
  split; [exact E|].
  exact (proj1 (@from_server_file_result example_world _ _ _ _ E)).
Defined.

(** ** Names of the enumeration members *)

(** X10. For each of the three enumerations, [from_string] is the inverse
    of [value]: a string is read as a member exactly when it is that
    member's value, and every other string gives [None]. *)
Theorem from_string_inverts_value :
  (forall c s, Category.from_string s = Some c <-> Category.value c = s)
  /\ (forall c s, Status.from_string s = Some c <-> Status.value c = s)
  /\ (forall c s, PList.from_string s = Some c <-> PList.value c = s)
  /\ (forall s, Category.from_string s = None <-> s ∉ Category.values)
  /\ (forall s, Status.from_string s = None <-> s ∉ Status.value <$> Status.members)
  /\ (forall s, PList.from_string s = None <-> s ∉ PList.value <$> PList.members).
Proof.
  assert (C : forall c s, Category.from_string s = Some c <-> Category.value c = s).
  { intros c s. split.
    - intros E. apply find_some in E as [_ E]. apply eqb_true, E.
    - intros <-. destruct c; vm_compute; reflexivity. }
  assert (S : forall c s, Status.from_string s = Some c <-> Status.value c = s).
  { intros c s. split.
    - intros E. apply find_some in E as [_ E]. apply eqb_true, E.
    - intros <-. destruct c; vm_compute; reflexivity. }
  assert (L : forall c s, PList.from_string s = Some c <-> PList.value c = s).
  { intros c s. split.
    - intros E. apply find_some in E as [_ E]. apply eqb_true, E.
    - intros <-. destruct c; vm_compute; reflexivity. }
  repeat split; try (apply C || apply S || apply L).
  - intros E Hin. apply list_elem_of_fmap in Hin as (c & -> & _).
    rewrite (proj2 (C c _) eq_refl) in E. discriminate.
  - intros Hout. destruct (Category.from_string s) as [c|] eqn:E; [|reflexivity].
    exfalso. apply Hout. apply C in E as <-.
    apply list_elem_of_fmap_2, members_complete.
  - intros E Hin. apply list_elem_of_fmap in Hin as (c & -> & _).
    rewrite (proj2 (S c _) eq_refl) in E. discriminate.
  - intros Hout. destruct (Status.from_string s) as [c|] eqn:E; [|reflexivity].
    exfalso. apply Hout. apply S in E as <-.
    apply list_elem_of_fmap_2. destruct c; repeat constructor.
  - intros E Hin. apply list_elem_of_fmap in Hin as (c & -> & _).
    rewrite (proj2 (L c _) eq_refl) in E. discriminate.
  - intros Hout. destruct (PList.from_string s) as [c|] eqn:E; [|reflexivity].
    exfalso. apply Hout. apply L in E as <-.
    apply list_elem_of_fmap_2. destruct c; repeat constructor.
Qed.

(** ** Blocking an item and the end of the progression *)

(** X11. On every board [block] makes exactly one call, for the list
    field with the id of the blocked option. When the call raises, the
    exception is passed on, the item is as before and nothing is printed.
    When it returns, [Blocked] is printed and the item is put on the list
    of the first of the options to_sandbox, to_production and blocked
    whose id equals the id of the blocked option: on the blocked list
    where the blocked option has an id of its own, and then a later
    [bump_pushlist] raises [ValueError] and changes nothing. *)
Theorem block_blocks `{Board} (s : Session) :
  let sent :=
    mkMutation TRAFFIC_JAM_ID (id_ (self_item s)) LIST_FIELD_ID BLOCKED_ID in
  let r := (block s).1 in
  let s' := (block s).2 in
  let target :=
    if bool_decide (BLOCKED_ID = TO_SANDBOX_ID) then TO_SANDBOX
    else if bool_decide (BLOCKED_ID = TO_PRODUCTION_ID) then TO_PRODUCTION
    else LIST_BLOCKED in
  board_calls s' = board_calls s ++ [sent]
  /\ (if graphql_returns (board_calls s) sent
      then r = Ok tt
           /\ self_item s' = set_push_list (self_item s) (Some target)
           /\ printed s' = printed s ++ [("Blocked" : str)]
      else r = Raised TransportError
           /\ self_item s' = self_item s
           /\ printed s' = printed s)
  /\ (BLOCKED_ID <> TO_SANDBOX_ID -> BLOCKED_ID <> TO_PRODUCTION_ID ->
      graphql_returns (board_calls s) sent = true ->
      push_list (self_item s') = Some LIST_BLOCKED
      /\ bump_pushlist s' = (Raised ValueError, s')).
Proof.
  cbv zeta.
  unfold block, set_pushlist, run_graphql, assign_push_list, print, ListOption.eqb.
  cbn [ListOption.value].
  split; [destruct (graphql_returns _ _);
          repeat match goal with |- context [bool_decide ?P] =>
                   destruct (bool_decide P) end; reflexivity|].
  split.
  - destruct (graphql_returns _ _); [|repeat split].
    destruct (bool_decide (BLOCKED_ID = TO_SANDBOX_ID)); [repeat split|].
    destruct (bool_decide (BLOCKED_ID = TO_PRODUCTION_ID)); [repeat split|].
    rewrite bool_decide_eq_true_2 by reflexivity. repeat split.
  - intros Hs Hp Hr. rewrite Hr.
    rewrite (bool_decide_eq_false_2 _ Hs), (bool_decide_eq_false_2 _ Hp).
    rewrite bool_decide_eq_true_2 by reflexivity.
    repeat split.
Qed.

Lemma block_blocks_witness :
  let item := PushItem4 (PurePath.of_str "ofl/mavenpro") (Some NEW) (Some IN_DEV) "1" in
  let s := mkSession item [] [] in
  @BLOCKED_ID example_board <> @TO_SANDBOX_ID example_board
  /\ @BLOCKED_ID example_board <> @TO_PRODUCTION_ID example_board
  /\ push_list (self_item (@block example_board s).2) = Some LIST_BLOCKED
  /\ @bump_pushlist example_board (@block example_board s).2
     = (Raised ValueError, (@block example_board s).2).
Proof.
  cbv zeta.
  assert (Hs : @BLOCKED_ID example_board <> @TO_SANDBOX_ID example_board)
    by (vm_compute; discriminate).
  assert (Hp : @BLOCKED_ID example_board <> @TO_PRODUCTION_ID example_board)
    by (vm_compute; discriminate).
  split; [exact Hs|]. split; [exact Hp|].
  exact (proj2 (proj2 (@block_blocks example_board
                         (mkSession (PushItem4 (PurePath.of_str "ofl/mavenpro") (Some NEW)
                                               (Some IN_DEV) "1") [] [])))
               Hs Hp eq_refl).
Defined.

(** X12. [to_production] is where the progression ends: from an item on
    that list any number of calls of [bump_pushlist] return, make no call
    to the board, leave the item as it is and print one line each. *)
Theorem bump_pushlist_stays_in_production `{Board} (n : nat) (s : Session) :
  push_list (self_item s) = Some TO_PRODUCTION ->
  let r := (bump_times n s).1 in
  let s' := (bump_times n s).2 in
  r = Ok tt
  /\ self_item s' = self_item s
  /\ board_calls s' = board_calls s
  /\ printed s' =
       printed s ++
       repeat ("No push list beyond to_production. Keeping item in to_production" : str) n.
Proof.
  cbv zeta. revert s. induction n as [|n IH]; intros s E.
  - simpl. rewrite app_nil_r. repeat split.
  - cbn [bump_times]. unfold bump_pushlist at 1 2 3 4. rewrite E. unfold print.
    match goal with |- context [bump_times n ?t] =>
      destruct (IH t E) as (-> & -> & -> & ->) end.
    simpl. rewrite <- app_assoc. repeat split.
Qed.

Lemma bump_pushlist_stays_in_production_witness :
  let item := mkPushItem (PurePath.of_str "ofl/mavenpro") (Some NEW) (Some IN_SANDBOX)
                         "1" (Some TO_PRODUCTION) None None in
  let s := mkSession item [] [] in
  push_list (self_item s) = Some TO_PRODUCTION
  /\ board_calls (@bump_times example_board 3 s).2 = [].
Proof.
  cbv zeta. split; [reflexivity|].
  exact (proj1 (proj2 (proj2
    (@bump_pushlist_stays_in_production example_board 3
       (mkSession (mkPushItem (PurePath.of_str "ofl/mavenpro") (Some NEW)
                              (Some IN_SANDBOX) "1" (Some TO_PRODUCTION) None None)
                  [] []) eq_refl)))).
Defined.

(** ** Paths that are not on disk *)





(** ** The summary of an item *)

Lemma status_value_inj (s s' : PushStatus) : Status.value s = Status.value s' -> s = s'.
Proof. destruct s, s'; intros E; try reflexivity; vm_compute in E; discriminate. Qed.

(** X14. The dictionary of [to_json] determines the path, the category,
    the status and the url of an item whose path is a path object, and
    nothing else: two such items have the same dictionary exactly when
    they agree on these four fields. *)
Theorem to_json_determines_item (i j : PushItem) :
  path_object (path i) = true -> path_object (path j) = true ->
  to_json i = to_json j <->
  path i = path j /\ category i = category j /\ status i = status j /\ url i = url j.
Proof.
  intros Oi Oj. split.
  - unfold to_json. intros E. injection E as Ep Ec Es Eu. repeat split.
    + rewrite <- (of_str_to_str _ Oi), <- (of_str_to_str _ Oj), Ep. reflexivity.
    + destruct (category i) as [c|], (category j) as [c'|]; try discriminate;
        [|reflexivity]. injection Ec as Ec. f_equal. apply value_inj, Ec.
    + destruct (status i) as [c|], (status j) as [c'|]; try discriminate;
        [|reflexivity]. injection Es as Es. f_equal. apply status_value_inj, Es.
    + destruct (url i), (url j); congruence.
  - intros (Ep & Ec & Es & Eu). unfold to_json. rewrite Ep, Ec, Es, Eu. reflexivity.
Qed.

Lemma to_json_determines_item_witness :
  let i := mkPushItem (PurePath.of_str "ofl/mavenpro") (Some NEW) (Some IN_DEV) "1"
                      (Some TO_SANDBOX) (Some true) (Some ("PVTI_1" : str)) in
  let j := PushItem4 (PurePath.of_str "ofl/mavenpro") (Some NEW) (Some IN_DEV) "1" in
  path_object (path i) = true /\ path_object (path j) = true
  /\ to_json i = to_json j.
Proof.
  cbv zeta. split; [vm_compute; reflexivity|]. split; [vm_compute; reflexivity|].
  apply (proj2 (to_json_determines_item
                  (mkPushItem (PurePath.of_str "ofl/mavenpro") (Some NEW) (Some IN_DEV)
                              "1" (Some TO_SANDBOX) (Some true) (Some ("PVTI_1" : str)))
                  (PushItem4 (PurePath.of_str "ofl/mavenpro") (Some NEW) (Some IN_DEV) "1")
                  eq_refl eq_refl)).
  repeat split.
Defined.

(** ** Items of the board *)

Lemma has_label (l : str) (labels : list str) :
  existsb (PyStr.eqb l) labels = true <-> l ∈ labels.
Proof.
  rewrite existsb_exists. split.
  - intros (x & Hx & E). apply eqb_true in E as ->. apply list_elem_of_In, Hx.
  - intros Hl. exists l. split; [apply list_elem_of_In, Hl | apply eqb_true; reflexivity].
Qed.

Lemma has_label_false (l : str) (labels : list str) :
  existsb (PyStr.eqb l) labels = false <-> l ∉ labels.
Proof.
  rewrite <- has_label. destruct (existsb _ labels); split; intros E;
    congruence || (exfalso; apply E; reflexivity).
Qed.

(** X15. The category that [from_traffic_jam] gives a pull request
    depends only on which of the nine known labels it carries; it is
    Blocked exactly when the label [--- blocked] is among them, whatever
    the others are; it is Other exactly when none of the nine is; and it
    is never Deleted. *)
Theorem category_of_labels_precedence (labels : list str) :
  (forall labels', (forall l, l ∈ known_labels -> (l ∈ labels <-> l ∈ labels')) ->
                   category_of_labels labels' = category_of_labels labels)
  /\ (category_of_labels labels = BLOCKED <-> ("--- blocked" : str) ∈ labels)
  /\ (category_of_labels labels = OTHER <-> forall l, l ∈ known_labels -> l ∉ labels)
  /\ category_of_labels labels <> DELETED.
Proof.
  split; [|split; [|split]].
  - intros labels' Hsame.
    assert (Hb : forall l, l ∈ known_labels ->
                 existsb (PyStr.eqb l) labels' = existsb (PyStr.eqb l) labels).
    { intros l Hl. apply eq_true_iff_eq. rewrite !has_label. symmetry. apply Hsame, Hl. }
    unfold category_of_labels. cbv zeta.
    rewrite !Hb by (unfold known_labels; repeat constructor). reflexivity.
  - rewrite <- has_label. unfold category_of_labels. cbv zeta.
    destruct (existsb (PyStr.eqb "--- blocked") labels); [split; reflexivity|].
    repeat match goal with |- context [if ?b then _ else _] => destruct b end;
      split; discriminate.
  - unfold category_of_labels. cbv zeta. split.
    + intros E l Hl. apply has_label_false. revert E.
      repeat match goal with
             | |- context [if ?b then _ else _] =>
                 destruct b eqn:?; [discriminate|]
             end.
      intros _.
      repeat match goal with
             | E : _ || _ = false |- _ => apply orb_false_elim in E as (? & ?)
             end.
      unfold known_labels in Hl.
      repeat (apply elem_of_cons in Hl as [->|Hl]; [assumption|]).
      inversion Hl.
    + intros A.
      rewrite !(proj2 (has_label_false _ labels))
        by (apply A; unfold known_labels; repeat constructor).
      reflexivity.
  - unfold category_of_labels. cbv zeta.
    repeat match goal with |- context [if ?b then _ else _] => destruct b end;
      discriminate.
Qed.

(** X16. The files of one pull request, added to a registry with pairwise
    distinct paths, none of one part, leave such a registry; each of its
    members is a member of the registry before or carries the category of
    the labels and the status, list, url, merged flag and id of the pull
    request; and members of the registry before can only have been
    removed, never altered. *)
Theorem add_pull_request_members `{World} (results : PushItems)
    (stat : option PushStatus) (plist : option PushList) (labels files : list str)
    (link : str) (merge : option bool) (ident : option str) :
  no_bare_root results -> NoDup (path <$> results) ->
  let r := add_pull_request results stat plist labels files link merge ident in
  no_bare_root r /\ NoDup (path <$> r)
  /\ forall i, i ∈ r ->
       i ∈ results \/ of_pull_request labels stat plist link merge ident i.
Proof.
  cbv zeta. unfold add_pull_request. cbv zeta.
  set (P := fun i => i ∈ results
                     \/ of_pull_request labels stat plist link merge ident i).
  enough (G : forall files acc,
            no_bare_root acc -> NoDup (path <$> acc) -> Forall P acc ->
            let r := fold_left
                       (fun results f =>
                          add results
                            (mkPushItem (PurePath.of_str f)
                               (Some (category_of_labels labels)) stat link plist
                               merge ident))
                       files acc in
            no_bare_root r /\ NoDup (path <$> r) /\ Forall P r).
  { intros R N. destruct (G files results R N) as (R' & N' & F').
    - apply Forall_forall. intros i Hi. left. exact Hi.
    - split; [exact R'|]. split; [exact N'|].
      intros i Hi. rewrite Forall_forall in F'. exact (F' i Hi). }
  clear files. induction files as [|f files IH]; intros acc R N F; cbv zeta.
  - repeat split; assumption.
  - cbn [fold_left]. apply IH.
    + apply add_no_bare_root, R.
    + apply add_NoDup; assumption.
    + apply add_keeps_fields; try assumption.
      * intros p _. right. repeat split.
      * right. repeat split.
Qed.

Lemma add_pull_request_members_witness :
  let before := [ PushItem4 (PurePath.of_str "ofl/notosans") (Some NEW) (Some IN_DEV) "1" ] in
  let r := @add_pull_request example_world before (Some PR_GF) None
             [ ("I Small Fix" : str) ]
             [ ("ofl/mavenpro/METADATA.pb" : str); ("ofl/mavenpro/OFL.txt" : str) ]
             "2" (Some false) (Some ("PVTI_2" : str)) in
  no_bare_root before /\ NoDup (path <$> before)
  /\ r = before ++ [ mkPushItem (PurePath.of_str "ofl/mavenpro") (Some UPGRADE)
                                (Some PR_GF) "2" None (Some false)
                                (Some ("PVTI_2" : str)) ]
  /\ NoDup (path <$> r).
Proof.
  cbv zeta.
  assert (R : no_bare_root
                [ PushItem4 (PurePath.of_str "ofl/notosans") (Some NEW) (Some IN_DEV) "1" ]).
  { constructor; [vm_compute; discriminate | constructor]. }
  assert (N : NoDup (path <$>
                [ PushItem4 (PurePath.of_str "ofl/notosans") (Some NEW) (Some IN_DEV) "1" ])).
  { apply (bool_decide_unpack _). vm_compute. exact I. }
  split; [exact R|]. split; [exact N|]. split; [vm_compute; reflexivity|].
  exact (proj1 (proj2 (@add_pull_request_members example_world _ (Some PR_GF) None
                         [ ("I Small Fix" : str) ]
                         [ ("ofl/mavenpro/METADATA.pb" : str);
                           ("ofl/mavenpro/OFL.txt" : str) ]
                         "2" (Some false) (Some ("PVTI_2" : str)) R N))).
Defined.

(** ** Differences and views *)

Lemma kept_members_covered (a b : PushItems) :
  (forall i, i ∈ a -> path i ∈ path <$> b) -> kept_members a b = [].
Proof.
  unfold kept_members. induction a as [|x a IH]; intros C; [reflexivity|].
  cbn [List.filter]. rewrite bool_decide_eq_true_2 by (apply C; left).
  apply IH. intros i Hi. apply C. right. exact Hi.
Qed.

(** X17. The difference of two registries has pairwise distinct paths,
    none of one part, whatever the two registries are; it is empty when
    every path of the first is a path of the second, and so the
    difference of a registry and itself is empty. *)
Theorem difference_of_covered `{World} (a b : PushItems) :
  NoDup (path <$> difference a b) /\ no_bare_root (difference a b)
  /\ ((forall i, i ∈ a -> path i ∈ path <$> b) -> difference a b = [])
  /\ difference a a = []
  /\ difference a (b ++ a) = [].
Proof.
  unfold difference. cbv zeta. rewrite !kept_members_test.
  split; [apply add_all_NoDup; constructor|].
  split; [apply add_all_no_bare_root; constructor|].
  split; [intros C; rewrite (kept_members_covered a b C); reflexivity|].
  split.
  - rewrite kept_members_covered; [reflexivity|].
    intros i Hi. apply list_elem_of_fmap_2, Hi.
  - rewrite kept_members_covered; [reflexivity|].
    intros i Hi. apply list_elem_of_fmap_2, elem_of_app. right. exact Hi.
Qed.

Lemma filter_constant {A} (f : A -> bool) (b : bool) (l : list A) :
  Forall (fun x => f x = b) l -> List.filter f l = if b then l else [].
Proof.
  induction 1 as [|x l Hx _ IH]; [destruct b; reflexivity|].
  cbn [List.filter]. rewrite Hx, IH. destruct b; reflexivity.
Qed.

(** X18. A registry read from a server file lies wholly in the views of
    the status and of the list that the reader was given, and the other
    views of it are empty. *)
Theorem views_of_a_read_file `{World} (stat : option PushStatus)
    (plist : option PushList) (text : str) (r : PushItems) :
  from_server_file text stat plist = Ok r ->
  in_dev r = (if bool_decide (stat = Some IN_DEV) then r else [])
  /\ in_sandbox r = (if bool_decide (stat = Some IN_SANDBOX) then r else [])
  /\ live r = (if bool_decide (stat = Some LIVE) then r else [])
  /\ to_sandbox r = (if bool_decide (plist = Some TO_SANDBOX) then r else [])
  /\ to_production r = (if bool_decide (plist = Some TO_PRODUCTION) then r else []).
Proof.
  intros E. destruct (from_server_file_members stat plist text r E) as (_ & _ & F).
  unfold in_dev, in_sandbox, live, to_sandbox, to_production.
  repeat split; apply filter_constant; (eapply Forall_impl; [exact F|]);
    intros i (Hs & Hl & _); cbv beta; rewrite ?Hs, ?Hl; reflexivity.
Qed.

Lemma views_of_a_read_file_witness :
  let text := ("# New
ofl/noto # 2
ofl/mavenpro # 3" : str) in
  let r := [ mkPushItem (PurePath.of_str "ofl/noto") (Some NEW) (Some IN_DEV) "2"
                        (Some TO_SANDBOX) None None;
             mkPushItem (PurePath.of_str "ofl/mavenpro") (Some NEW) (Some IN_DEV) "3"
                        (Some TO_SANDBOX) None None ] in
  @from_server_file example_world text (Some IN_DEV) (Some TO_SANDBOX) = Ok r
  /\ in_dev r = r /\ live r = [].
Proof.
  cbv zeta.
  assert (E : @from_server_file example_world ("# New
ofl/noto # 2
ofl/mavenpro # 3" : str) (Some IN_DEV) (Some TO_SANDBOX)
     = Ok [ mkPushItem (PurePath.of_str "ofl/noto") (Some NEW) (Some IN_DEV) "2"
                       (Some TO_SANDBOX) None None;
            mkPushItem (PurePath.of_str "ofl/mavenpro") (Some NEW) (Some IN_DEV) "3"
                       (Some TO_SANDBOX) None None ]).
  { vm_compute. reflexivity. }
  split; [exact E|].
  destruct (@views_of_a_read_file example_world _ _ _ _ E) as (D & _ & L & _).
  split; [exact D | exact L].
Defined.
